(** * Conversational SQL agent: the conversation pipeline and the upload helper

    A shallow embedding of [backend/agent.py] (the stages
    [identify_table_step], [generate_sql_step], [execute_sql_step]) and of
    [backend/upload_utils.py] ([upload_new_table] and its helpers), with the
    properties of the follow-up heuristics, of filter capture and of the
    row limit.

    Conventions.
    - A Python [str] is a Rocq [string]; a character is a code point in
      U+0000..U+00FF.  All literals of the program are ASCII.
    - The conversation state is a Python [dict]; it is a [gmap string pyval].
      A key can be absent, hold [None], or hold a string.
    - The stages mutate the dictionary in place and call the database and the
      language model.  They are written in a state-and-exception monad [Py]
      whose state survives a raised exception, as a mutated dictionary does.
      Every external call is recorded in a trace. *)

From Stdlib Require Import Ascii.
From stdpp Require Import gmap strings list pretty.

Local Open Scope Z_scope.

(** ** Python string methods *)

Module PyString.

Definition LF : string := String (Ascii.ascii_of_nat 10) "".

Definition code (c : ascii) : N := Ascii.N_of_ascii c.

(** [str.isspace] on one character, for code points below 256. *)
Definition isspace (c : ascii) : bool :=
  let n := code c in
  ((9 <=? n) && (n <=? 13) || (28 <=? n) && (n <=? 32)
   || (n =? 133) || (n =? 160))%N.

(** [str.lower] on one character: A-Z and the Latin-1 capitals. *)
Definition lower_char (c : ascii) : ascii :=
  let n := code c in
  if ((65 <=? n) && (n <=? 90)
      || (192 <=? n) && (n <=? 222) && negb (n =? 215))%N
  then Ascii.ascii_of_N (n + 32) else c.

(** [str.upper] on one character.  Three code points below 256 have an
    upper case outside this range or of two letters (U+00B5, U+00DF,
    U+00FF); they are left as they are.  The program only asks whether
    "WHERE" occurs in an upper-cased text, and none of the three maps to a
    letter of that word, so the answer is the same. *)
Definition upper_char (c : ascii) : ascii :=
  let n := code c in
  if ((97 <=? n) && (n <=? 122)
      || (224 <=? n) && (n <=? 254) && negb (n =? 247))%N
  then Ascii.ascii_of_N (n - 32) else c.

Fixpoint map_chars (f : ascii → ascii) (s : string) : string :=
  match s with
  | EmptyString => EmptyString
  | String c s' => String (f c) (map_chars f s')
  end.

Definition lower : string → string := map_chars lower_char.
Definition upper : string → string := map_chars upper_char.

(** [s.lstrip()], [s.rstrip()], [s.strip()] with a character class. *)
Fixpoint lstrip_by (p : ascii → bool) (s : string) : string :=
  match s with
  | EmptyString => EmptyString
  | String c s' => if p c then lstrip_by p s' else s
  end.

Fixpoint rstrip_by (p : ascii → bool) (s : string) : string :=
  match s with
  | EmptyString => EmptyString
  | String c s' =>
      match rstrip_by p s' with
      | EmptyString => if p c then EmptyString else String c EmptyString
      | r => String c r
      end
  end.

Definition strip (s : string) : string := rstrip_by isspace (lstrip_by isspace s).

(** [s.rstrip(chars)] *)
Fixpoint mem_char (c : ascii) (chars : string) : bool :=
  match chars with
  | EmptyString => false
  | String d chars' => if decide (c = d) then true else mem_char c chars'
  end.

Definition rstrip_chars (chars s : string) : string :=
  rstrip_by (λ c, mem_char c chars) s.

(** [strip_prefix p s] is what follows [p] at the head of [s]. *)
Fixpoint strip_prefix (p s : string) : option string :=
  match p, s with
  | EmptyString, _ => Some s
  | String a p', String b s' => if decide (a = b) then strip_prefix p' s' else None
  | String _ _, EmptyString => None
  end.

(** [s.startswith(p)] *)
Definition startswith (p s : string) : bool :=
  match strip_prefix p s with Some _ => true | None => false end.

(** The search that [in], [split] and [replace] share: the text before and
    the text after the leftmost occurrence of [sep]. *)
Fixpoint find_first (sep s : string) : option (string * string) :=
  match strip_prefix sep s with
  | Some rest => Some (EmptyString, rest)
  | None =>
      match s with
      | EmptyString => None
      | String c s' =>
          match find_first sep s' with
          | Some (a, b) => Some (String c a, b)
          | None => None
          end
      end
  end.

(** [sep in s] *)
Definition contains (sep s : string) : bool :=
  match find_first sep s with Some _ => true | None => false end.

(** [s.split(sep, maxsplit)] for a non-empty [sep]; [maxsplit = None] is
    Python's default of no limit.  Every cut removes at least one
    character, so [String.length s] cuts are enough. *)
Fixpoint split_go (fuel : nat) (sep : string) (maxsplit : option nat)
    (s : string) : list string :=
  match fuel with
  | O => [s]
  | S fuel' =>
      match maxsplit with
      | Some O => [s]
      | _ =>
          match find_first sep s with
          | None => [s]
          | Some (a, b) => a :: split_go fuel' sep (Nat.pred <$> maxsplit) b
          end
      end
  end.

Definition split (sep : string) (maxsplit : option nat) (s : string) : list string :=
  split_go (String.length s) sep maxsplit s.

(** [s.replace(old, new)] for a non-empty [old]: the occurrences are found
    from the left and do not overlap. *)
Fixpoint replace_go (fuel : nat) (old new s : string) : string :=
  match fuel with
  | O => s
  | S fuel' =>
      match find_first old s with
      | None => s
      | Some (a, b) => a +:+ new +:+ replace_go fuel' old new b
      end
  end.

Definition replace (old new s : string) : string :=
  replace_go (String.length s) old new s.

(** [sep.join(parts)] *)
Fixpoint join (sep : string) (parts : list string) : string :=
  match parts with
  | [] => EmptyString
  | [p] => p
  | p :: ps => p +:+ sep +:+ join sep ps
  end.

End PyString.
Import PyString.

(** ** Python values, exceptions and the effect monad *)

(** The values a state field holds: [None] or a string. *)
Inductive pyval :=
  | PyNone
  | PyStr (s : string).

Global Instance pyval_eq_dec : EqDecision pyval.
Proof. solve_decision. Defined.

(** Truth value of [v] in a condition. *)
Definition truthy (v : pyval) : bool :=
  match v with
  | PyStr (String _ _) => true
  | _ => false
  end.

(** [str(v)], which is what an f-string inserts. *)
Definition py_str (v : pyval) : string :=
  match v with
  | PyNone => "None"
  | PyStr s => s
  end.

(** [v or ""] *)
Definition or_empty (v : pyval) : string :=
  match v with
  | PyStr (String c s) => String c s
  | _ => ""
  end.

(** The exception classes the program names or can meet.  [SQLAlchemyError]
    stands for the class and its subclasses; all of them derive from
    [Exception]. *)
Inductive exn_class :=
  | SQLAlchemyError
  | IndexError
  | KeyError
  | AttributeError
  | ValueError
  | RuntimeError
  | FileNotFoundError
  | OtherException.

Global Instance exn_class_eq_dec : EqDecision exn_class.
Proof. solve_decision. Defined.

(** An exception with the text [str(e)] gives. *)
Record exn := Exn { exn_cls : exn_class; exn_msg : string }.

Inductive res (A : Type) :=
  | Ok (a : A)
  | Raise (e : exn).
Arguments Ok {A} a.
Arguments Raise {A} e.

(** A computation over a mutable world [W].  The world after a raise is the
    world at the raise: what was written stays written. *)
Definition Py (W A : Type) : Type := W → res A * W.

Global Instance Py_ret {W} : MRet (Py W) := λ A a w, (Ok a, w).

Global Instance Py_bind {W} : MBind (Py W) := λ A B f m w,
  match m w with
  | (Ok a, w') => f a w'
  | (Raise e, w') => (Raise e, w')
  end.

Global Instance Py_fmap {W} : FMap (Py W) := λ A B f m w,
  match m w with
  | (Ok a, w') => (Ok (f a), w')
  | (Raise e, w') => (Raise e, w')
  end.

(** [raise e] *)
Definition raise {W A} (e : exn) : Py W A := λ w, (Raise e, w).

(** [try: m  except Exception as e: ...] as a value: the handler is the
    continuation on [inl e]. *)
Definition attempt {W A} (m : Py W A) : Py W (exn + A) := λ w,
  match m w with
  | (Ok a, w') => (Ok (inr a), w')
  | (Raise e, w') => (Ok (inl e), w')
  end.

(** [xs[i]] on a list *)
Definition list_index {W A} (xs : list A) (i : nat) : Py W A :=
  match xs !! i with
  | Some x => mret x
  | None => raise (Exn IndexError "list index out of range")
  end.

(** A method call on a value that must be a string: [None] has no string
    methods. *)
Definition as_str {W} (attr : string) (v : pyval) : Py W string :=
  match v with
  | PyStr s => mret s
  | PyNone =>
      raise (Exn AttributeError
               ("'NoneType' object has no attribute '" +:+ attr +:+ "'"))
  end.

(** ** The conversation state and the collaborators *)

(** [AgentState]: a dictionary from field names to values. *)
Abbreviation AgentState := (gmap string pyval).

(** External calls, in the order they are made. *)
Inductive event :=
  | ListTables
  | FetchSchema (table : string)
  | ChatCompletion (system user : string)
  | SynthesizeSql (user_query table : string)
  | RunQuery (sql : string).

(** The dictionary threaded through the pipeline and the calls made so far. *)
Record world := World { state : AgentState; trace : list event }.

(** What the stages call: the schema catalog ([backend.database]), the query
    executor ([backend.executer]), the chat model and the SQL synthesizer
    ([backend.sql_generator], which asks the chat model).  Each either
    returns or raises. *)
Class Collaborators := {
  schema : Type;
  rows : Type;
  (** [str] of a schema dictionary and of a list of row records *)
  str_schema : schema → string;
  str_rows : rows → string;
  get_all_table_names : res (list string);
  get_table_schema : string → res schema;
  (** [client.chat.completions.create(...).choices[0].message.content] *)
  chat_completion : string → string → res pyval;
  generate_sql_gemini : string → schema → string → res pyval;
  run_query : string → res rows;
}.

Section Agent.
Context `{backend : Collaborators}.

(** An external call: it is recorded, then it returns or raises. *)
Definition call {A} (ev : event) (r : res A) : Py world A := λ w,
  (r, World (state w) (trace w ++ [ev])).

(** [state.get(k)] *)
Definition dict_get (k : string) : Py world pyval := λ w,
  (Ok (match state w !! k with Some v => v | None => PyNone end), w).

(** [state.get(k, d)] *)
Definition dict_get_or (k : string) (d : pyval) : Py world pyval := λ w,
  (Ok (match state w !! k with Some v => v | None => d end), w).

(** [state[k]] *)
Definition getitem (k : string) : Py world pyval := λ w,
  match state w !! k with
  | Some v => (Ok v, w)
  | None => (Raise (Exn KeyError ("'" +:+ k +:+ "'")), w)
  end.

(** [state[k] = v] *)
Definition setitem (k : string) (v : pyval) : Py world unit := λ w,
  (Ok (), World (<[k := v]> (state w)) (trace w)).

(** [return state] *)
Definition return_state : Py world AgentState := λ w, (Ok (state w), w).

(** *** identify_table_step *)

(** [d[k] = v] on a dictionary kept in insertion order. *)
Fixpoint od_set (k v : string) (d : list (string * string)) : list (string * string) :=
  match d with
  | [] => [(k, v)]
  | (k', v') :: d' =>
      if decide (k = k') then (k, v) :: d' else (k', v') :: od_set k v d'
  end.

(** The loop filling [table_schemas]; a schema that cannot be fetched is
    replaced by a marker. *)
Fixpoint fetch_schemas (ts : list string) (table_schemas : list (string * string))
    : Py world (list (string * string)) :=
  match ts with
  | [] => mret table_schemas
  | t :: ts' =>
      r ← attempt (call (FetchSchema t) (get_table_schema t));
      let v := match r with
               | inr sch => str_schema sch
               | inl _ => "(schema unavailable)"
               end in
      fetch_schemas ts' (od_set t v table_schemas)
  end.

Definition identify_prompt (query : pyval) (schema_text : string) : string :=
  LF +:+ "You are a data expert." +:+ LF
  +:+ "Given the user's query and available tables, choose the ONE table that best matches the query." +:+ LF
  +:+ LF
  +:+ "User Query: " +:+ py_str query +:+ LF
  +:+ "Available Tables and Schemas:" +:+ LF
  +:+ schema_text +:+ LF
  +:+ LF
  +:+ "Return only the table name (no explanation). If no table fits, return 'none'." +:+ LF.

Definition identify_table_step : Py world AgentState :=
  table_name ← dict_get "table_name";
  if truthy table_name then return_state
  else
    r ← attempt (call ListTables get_all_table_names);
    match r with
    | inl _ => return_state
    | inr all_tables =>
        if bool_decide (all_tables = []) then return_state
        else
          table_schemas ← fetch_schemas all_tables [];
          let schema_text :=
            join (LF +:+ LF)
              ((λ '(t, cols), "Table: " +:+ t +:+ LF +:+ "Columns: " +:+ cols)
                 <$> table_schemas) in
          query ← dict_get "query";
          let prompt := identify_prompt query schema_text in
          attempt (
            content ← call (ChatCompletion "You are an intelligent SQL assistant." prompt)
                           (chat_completion "You are an intelligent SQL assistant." prompt);
            content ← as_str "strip" content;
            let chosen_table := strip content in
            if bool_decide (lower chosen_table = "none")
               || negb (bool_decide (chosen_table ∈ all_tables))
            then mret ()
            else setitem "table_name" (PyStr chosen_table));;
          return_state
    end.

(** *** generate_sql_step *)

(** The aggregate statement of the breakdown follow-up. *)
Definition breakdown_sql (group_col table filters : string) : string :=
  LF +:+ "SELECT " +:+ group_col +:+ "," +:+ LF
  +:+ "       COUNT(*) AS review_count," +:+ LF
  +:+ "       AVG(reviewrating) AS avg_rating," +:+ LF
  +:+ "       MIN(reviewrating) AS min_rating," +:+ LF
  +:+ "       MAX(reviewrating) AS max_rating" +:+ LF
  +:+ "FROM " +:+ table +:+ LF
  +:+ "WHERE " +:+ filters +:+ LF
  +:+ "GROUP BY " +:+ group_col +:+ LF
  +:+ "ORDER BY review_count DESC;" +:+ LF.

Definition generate_sql_step : Py world AgentState :=
  table ← dict_get "table_name";
  if negb (truthy table) then return_state
  else
    let table := py_str table in
    r ← attempt (call (FetchSchema table) (get_table_schema table));
    match r with
    | inl _ => return_state
    | inr schema =>
        q ← dict_get_or "query" (PyStr "");
        query_text ← lower <$> as_str "lower" q;
        attempt (
          filters ← dict_get "filters";
          sql ←
            (if contains "male" query_text && truthy filters then
               f ← getitem "filters";
               f ← as_str "replace" f;
               let new_filters :=
                 replace "'female'" "'male'" (replace "Female" "Male" f) in
               let sql := "SELECT * FROM " +:+ table +:+ " WHERE " +:+ new_filters +:+ ";" in
               setitem "filters" (PyStr new_filters);;
               setitem "last_action" (PyStr "select_records");;
               mret sql
             else if contains "break down" query_text && truthy filters then
               group_col ←
                 (if contains "userage" query_text then mret (PyStr "userage")
                  else if contains "usergender" query_text then mret (PyStr "usergender")
                  else dict_get_or "last_group" (PyStr "usergender"));
               f ← getitem "filters";
               let sql := breakdown_sql (py_str group_col) table (py_str f) in
               setitem "last_action" (PyStr "breakdown");;
               setitem "last_group" group_col;;
               mret sql
             else
               memory ← dict_get_or "memory" (PyStr "");
               query ← dict_get "query";
               let enriched_query :=
                 "Conversation so far:" +:+ LF +:+ py_str memory +:+ LF +:+ LF
                 +:+ "User Query: " +:+ py_str query +:+ LF in
               g ← call (SynthesizeSql enriched_query table)
                        (generate_sql_gemini enriched_query schema table);
               let sql := or_empty g in
               if truthy filters && negb (contains "WHERE" (upper sql)) then
                 f ← getitem "filters";
                 mret (rstrip_chars ";" (strip sql) +:+ LF +:+ "WHERE " +:+ py_str f +:+ ";")
               else mret sql);
          if bool_decide (sql = "") || negb (startswith "select" (lower (strip sql)))
          then setitem "sql" (PyStr sql)
          else setitem "sql" (PyStr sql));;
        return_state
    end.

(** *** execute_sql_step *)

(** The body of the [try] block: run the statement, store the rows, then
    capture the filters. *)
Definition execute_try (sql : string) : Py world unit :=
  rows ← call (RunQuery sql) (run_query sql);
  setitem "result" (PyStr (str_rows rows));;
  if contains "WHERE" (upper sql) then
    where_clause ← list_index (split "WHERE" (Some 1%nat) sql) 1;
    before_group ← list_index (split "GROUP BY" None where_clause) 0;
    before_order ← list_index (split "ORDER BY" None before_group) 0;
    setitem "filters" (PyStr (strip before_order))
  else mret ().

(** The two [except] clauses, the database one first. *)
Definition execute_except (e : exn) : Py world unit :=
  if decide (exn_cls e = SQLAlchemyError)
  then setitem "result" (PyStr ("Database error: " +:+ exn_msg e))
  else setitem "result" (PyStr ("Execution error: " +:+ exn_msg e)).

Definition execute_sql_step : Py world AgentState :=
  sql ← dict_get "sql";
  if negb (truthy sql) then return_state
  else
    let sql := py_str sql in
    r ← attempt (execute_try sql);
    match r with
    | inr _ => mret ()
    | inl e => execute_except e
    end;;
    return_state.

End Agent.

(** *** The gender swap, as the specification words it *)

(** One pass over the filters from the left: an occurrence of "Female"
    becomes "Male", an occurrence of "'female'" becomes "'male'", and every
    other character is copied.  This definition follows the specification;
    the stage itself makes the two [replace] passes above, and
    [gender_swap_one_pass_correct] relates the two. *)
Fixpoint one_pass_go (fuel : nat) (s : string) : string :=
  match fuel with
  | O => s
  | S fuel' =>
      match strip_prefix "Female" s with
      | Some r => "Male" +:+ one_pass_go fuel' r
      | None =>
          match strip_prefix "'female'" s with
          | Some r => "'male'" +:+ one_pass_go fuel' r
          | None =>
              match s with
              | EmptyString => EmptyString
              | String c s' => String c (one_pass_go fuel' s')
              end
          end
      end
  end.
Definition gender_swap_one_pass (s : string) : string := one_pass_go (String.length s) s.

(** A table is selected when [table_name] holds a non-empty string. *)
Definition table_selected (st : AgentState) (table : string) : Prop :=
  st !! "table_name" = Some (PyStr table) ∧ table ≠ "".

(** No table is selected: the key is absent, or holds [None] or "". *)
Definition table_unset (st : AgentState) : Prop :=
  match st !! "table_name" with
  | Some v => truthy v = false
  | None => True
  end.

(** ** The upload helper *)

(** [str.isalnum] on one character, for code points below 256: digits,
    letters, and the Latin-1 letters and numeric signs. *)
Definition isalnum (c : ascii) : bool :=
  let n := code c in
  ((48 <=? n) && (n <=? 57) || (65 <=? n) && (n <=? 90) || (97 <=? n) && (n <=? 122)
   || (n =? 170) || (n =? 178) || (n =? 179) || (n =? 181) || (n =? 185) || (n =? 186)
   || (188 <=? n) && (n <=? 190)
   || (192 <=? n) && (n <=? 214) || (216 <=? n) && (n <=? 246) || (248 <=? n))%N.

Fixpoint all_chars (p : ascii → bool) (s : string) : bool :=
  match s with
  | EmptyString => true
  | String c s' => p c && all_chars p s'
  end.

(** A parsed table: the column labels and the rows, a row being the cells in
    column order ([PyNone] for a missing value). *)
Record DataFrame := { columns : list string; records : list (list pyval) }.

(** [len(df)] *)
Definition len (df : DataFrame) : Z := Z.of_nat (length (records df)).

(** [df.empty]: some axis has length 0. *)
Definition empty (df : DataFrame) : bool :=
  bool_decide (columns df = []) || bool_decide (records df = []).

(** [df.drop_duplicates()]: the first of equal rows is kept. *)
Fixpoint drop_duplicates (rs : list (list pyval)) : list (list pyval) :=
  match rs with
  | [] => []
  | r :: rs' => r :: filter (λ x, x ≠ r) (drop_duplicates rs')
  end.

(** A bound of a Python slice over [n] items. *)
Definition slice_bound (n i : Z) : Z :=
  if i <? 0 then Z.max (i + n) 0 else Z.min i n.

(** [df.iloc[start:stop]] *)
Definition iloc (df : DataFrame) (start stop : Z) : DataFrame :=
  let s := slice_bound (len df) start in
  let e := slice_bound (len df) stop in
  {| columns := columns df;
     records := take (Z.to_nat (e - s)) (drop (Z.to_nat s) (records df)) |}.

Inductive if_exists := Replace | Append.

(** What the helper does to the database, in order. *)
Inductive db_op :=
  | GetEngine
  | Begin
  | Execute (sql : string)
  | ToSql (table : string) (mode : if_exists) (schema : option string) (chunk : DataFrame).

(** The configuration read from the environment, the file system, the
    parsers and the database as the helper sees them. *)
Class UploadEnv := {
  MAX_ROWS : Z;
  CHUNK_SIZE : Z;
  DEFAULT_SCHEMA : pyval;
  path_exists : string → bool;
  path_name : string → string;
  path_suffix : string → string;
  secure_filename : string → string;
  read_csv : string → res DataFrame;
  read_excel : string → res DataFrame;
  get_engine : res ();
  engine_begin : res ();
  conn_execute : string → res ();
  to_sql : string → if_exists → option string → DataFrame → res ();
}.

Section Upload.
Context `{env : UploadEnv}.

(** A database call: it is recorded, then it returns or raises. *)
Definition db_call {A} (op : db_op) (r : res A) : Py (list db_op) A := λ ops,
  (r, ops ++ [op]).

(** A call that does not touch the database. *)
Definition pure_call {A} (r : res A) : Py (list db_op) A := λ ops, (r, ops).

Definition ALLOWED_EXT : list string := [".csv"; ".xlsx"; ".xls"].

Definition _validate_filename (filename : string) : res string :=
  let name := secure_filename filename in
  if bool_decide (name = "") then Raise (Exn ValueError "Invalid filename")
  else Ok name.

Definition _read_table_from_file (path : string) : res DataFrame :=
  let ext := lower (path_suffix path) in
  if negb (bool_decide (ext ∈ ALLOWED_EXT)) then
    Raise (Exn ValueError
             ("Unsupported file type: " +:+ ext
              +:+ ". Allowed: ['.csv', '.xls', '.xlsx']"))
  else if bool_decide (ext = ".csv") then read_csv path
  else read_excel path.

Definition _normalize_dataframe (df : DataFrame) : DataFrame :=
  {| columns :=
       (λ c, replace "-" "_" (replace " " "_" (lower (strip c)))) <$> columns df;
     records := drop_duplicates (records df) |}.

Definition _ensure_table_name_safe (name : string) : res string :=
  let n := lower (strip name) in
  if bool_decide (n = "") then
    Raise (Exn ValueError "Table name must not be empty")
  else if negb (all_chars (λ c, isalnum c || bool_decide (c = "_"%char)) n) then
    Raise (Exn ValueError "Table name may only contain letters, numbers and underscores")
  else Ok n.

(** The [while start < total] loop.  [fuel] bounds the number of rounds;
    the result is [None] when the loop has not ended within it (it never
    ends when [CHUNK_SIZE] is not positive). *)
Fixpoint write_chunks (fuel : nat) (df : DataFrame) (table_name : string)
    (schema : option string) (total start : Z) (first_chunk : bool)
    : Py (list db_op) (option ()) :=
  match fuel with
  | O => if start <? total then mret None else mret (Some ())
  | S fuel' =>
      if start <? total then
        let end_ := Z.min (start + CHUNK_SIZE) total in
        let chunk := iloc df start end_ in
        let mode := if first_chunk then Replace else Append in
        db_call (ToSql table_name mode schema chunk)
                (to_sql table_name mode schema chunk);;
        write_chunks fuel' df table_name schema total end_ false
      else mret (Some ())
  end.

Definition _to_sql_with_chunks (fuel : nat) (df : DataFrame) (table_name : string)
    (schema : pyval) : Py (list db_op) (option ()) :=
  let schema_kw := if truthy schema then Some (py_str schema) else None in
  db_call Begin engine_begin;;
  (let drop_sql :=
     "IF OBJECT_ID(N'" +:+ table_name +:+ "', N'U') IS NOT NULL DROP TABLE "
     +:+ table_name +:+ ";" in
   attempt (db_call (Execute drop_sql) (conn_execute drop_sql)));;
  let total := len df in
  if total =? 0 then raise (Exn ValueError "Uploaded file contains no rows")
  else write_chunks fuel df table_name schema_kw total 0 true.

(** [upload_new_table(file_path, table_name)]: the message on success,
    [None] when the chunk loop has not ended within [fuel]. *)
Definition upload_new_table (fuel : nat) (file_path table_name : string)
    : Py (list db_op) (option string) :=
  if negb (path_exists file_path) then
    raise (Exn FileNotFoundError ("File not found: " +:+ file_path))
  else
    pure_call (_validate_filename (path_name file_path));;
    table_name_safe ← pure_call (_ensure_table_name_safe table_name);
    df ← pure_call (_read_table_from_file file_path);
    if MAX_ROWS <? len df then
      raise (Exn ValueError
               ("File too large: " +:+ pretty (len df)
                +:+ " rows exceeds max allowed " +:+ pretty MAX_ROWS))
    else
      let df := _normalize_dataframe df in
      if empty df then
        raise (Exn ValueError "No data found after cleaning the uploaded file")
      else
        db_call GetEngine get_engine;;
        r ← attempt (_to_sql_with_chunks fuel df table_name_safe DEFAULT_SCHEMA);
        match r with
        | inr done =>
            mret ((λ _ : (), "Uploaded " +:+ pretty (len df) +:+ " rows to table '"
                             +:+ table_name_safe +:+ "' successfully") <$> done)
        | inl e =>
            raise (Exn RuntimeError
                     ("Failed to upload table '" +:+ table_name_safe +:+ "': "
                      +:+ exn_msg e))
        end.

End Upload.

(** A file system with one file, parsed to [df], and a database that
    accepts every call. *)
Definition one_file (max_rows chunk_size : Z) (file : string) (df : DataFrame)
    : UploadEnv := {|
  MAX_ROWS := max_rows;
  CHUNK_SIZE := chunk_size;
  DEFAULT_SCHEMA := PyNone;
  path_exists := λ p, bool_decide (p = file);
  path_name := id;
  path_suffix := λ _, ".csv";
  secure_filename := id;
  read_csv := λ _, Ok df;
  read_excel := λ _, Raise (Exn ValueError "Excel file format cannot be determined");
  get_engine := Ok ();
  engine_begin := Ok ();
  conn_execute := λ _, Ok ();
  to_sql := λ _ _ _ _, Ok ();
|}.

(** Three rows, the last one a repeat of the first. *)
Definition three_rows : DataFrame :=
  {| columns := ["User Name"; "user-age"];
     records := [[PyStr "ann"; PyStr "31"]; [PyStr "bob"; PyNone];
                 [PyStr "ann"; PyStr "31"]] |}.

(** ** Scripted collaborators, for concrete runs *)

(** What the catalog says about every table of the examples. *)
Definition reviews_schema : string :=
  "{'usergender': 'VARCHAR', 'userage': 'INTEGER', 'reviewrating': 'INTEGER'}".

(** A backend with the given tables, whose chat model, synthesizer and
    query executor give fixed outcomes. *)
Definition scripted (tables : list string) (model_answer synthesized : res pyval)
    (query_result : res string) : Collaborators := {|
  schema := string;
  rows := string;
  str_schema := id;
  str_rows := id;
  get_all_table_names := Ok tables;
  get_table_schema := λ t,
    if bool_decide (t ∈ tables)
    then Ok reviews_schema
    else Raise (Exn ValueError ("Table not found: " +:+ t));
  chat_completion := λ _ _, model_answer;
  generate_sql_gemini := λ _ _ _, synthesized;
  run_query := λ _, query_result;
|}.

(** One table, a model that picks it, and a query that returns a row. *)
Definition reviews_backend : Collaborators :=
  scripted ["reviews"] (Ok (PyStr "reviews"))
    (Ok (PyStr "SELECT * FROM reviews WHERE usergender = 'Female'"))
    (Ok "[{'n': 1}]").

(** A state in the middle of a conversation about [reviews]. *)
Definition follow_up (query : string) : AgentState :=
  <["query" := PyStr query]>
    (<["filters" := PyStr "usergender = 'Female'"]>
       (<["table_name" := PyStr "reviews"]> ∅)).

(** A state that holds only a statement to execute. *)
Definition with_sql (sql : string) : AgentState := {["sql" := PyStr sql]}.

(** ** The rest of the pipeline *)

Section Pipeline.
Context `{backend : Collaborators}.

(** *** summarize_step *)

Definition summary_prompt (memory query result table_name : pyval) : string :=
  LF +:+ "Conversation Memory:" +:+ LF
  +:+ py_str memory +:+ LF
  +:+ LF
  +:+ "User Query: " +:+ py_str query +:+ LF
  +:+ "SQL Result: " +:+ py_str result +:+ LF
  +:+ "Table: " +:+ py_str table_name +:+ LF
  +:+ LF
  +:+ "Write a clear, detailed answer in full sentences." +:+ LF
  +:+ "- Only describe the SQL result from table " +:+ py_str table_name +:+ "." +:+ LF
  +:+ "- Do not invent or switch to other datasets." +:+ LF
  +:+ "- Always explain the result in context." +:+ LF
  +:+ "- Include percentages or comparisons if relevant." +:+ LF
  +:+ "- Do not suggest next steps or ask questions." +:+ LF.

(** The body of the [try] block of [summarize_step]. *)
Definition summarize_try (prompt : string) : Py world unit :=
  content ← call (ChatCompletion "You are a helpful data analyst who speaks in plain English." prompt)
                 (chat_completion "You are a helpful data analyst who speaks in plain English." prompt);
  content ← as_str "strip" content;
  let answer := strip content in
  setitem "answer" (PyStr answer);;
  previous_memory ← dict_get_or "memory" (PyStr "");
  query ← dict_get "query";
  setitem "memory"
    (PyStr (py_str previous_memory +:+ LF +:+ "User: " +:+ py_str query +:+ LF
            +:+ "AI: " +:+ answer +:+ LF)).

Definition summarize_step : Py world AgentState :=
  memory ← dict_get_or "memory" (PyStr "None");
  query ← dict_get "query";
  result ← dict_get "result";
  table_name ← dict_get "table_name";
  r ← attempt (summarize_try (summary_prompt memory query result table_name));
  match r with
  | inr _ => mret ()
  | inl e => setitem "answer" (PyStr ("Summarization error: " +:+ exn_msg e))
  end;;
  return_state.

(** *** The graph *)

(** The edges declared on [agent_graph]: START, identify_table, generate_sql,
    execute_sql, summarize, END.  Every node returns the dictionary it was
    given, so a run is the four stages in sequence; an exception of a node
    ends the run. *)
Definition graph_agent : Py world AgentState :=
  identify_table_step;; generate_sql_step;; execute_sql_step;; summarize_step.

End Pipeline.

(** ** Frames and normal return *)

(** [m] writes no key outside [K] and only adds to the trace, whether it
    returns or raises. *)
Definition frames {A} (K : list string) (m : Py world A) : Prop :=
  ∀ w, (∀ k, k ∉ K → state (m w).2 !! k = state w !! k)
       ∧ trace w `prefix_of` trace (m w).2.

(** [m] returns normally from every world. *)
Definition never_raises {A} (m : Py world A) : Prop :=
  ∀ w, ∃ a, (m w).1 = Ok a.

(** A stage hands back the dictionary it leaves in the world. *)
Definition returns_its_state (m : Py world AgentState) : Prop :=
  ∀ w a, (m w).1 = Ok a → a = state (m w).2.

(** ** The SQL synthesizer *)

Module SqlGenerator.

(** The word at the head of [s] (empty when [s] starts with white space)
    and the words after it. *)
Fixpoint words_go (s : string) : string * list string :=
  match s with
  | EmptyString => (EmptyString, [])
  | String c s' =>
      let '(w, ws) := words_go s' in
      if isspace c
      then (EmptyString, match w with EmptyString => ws | _ => w :: ws end)
      else (String c w, ws)
  end.

(** [s.split()]: the words between runs of white space. *)
Definition split_whitespace (s : string) : list string :=
  let '(w, ws) := words_go s in
  match w with EmptyString => ws | _ => w :: ws end.

Definition _clean_model_sql (text : string) : string :=
  if bool_decide (text = "") then text
  else
    let cleaned := strip (replace "```" "" (replace "```sql" "" text)) in
    join " " (split_whitespace cleaned).

Definition _validate_sql (sql table_name : string) : bool :=
  if bool_decide (sql = "") then false
  else
    let lower_sql := lower (strip sql) in
    if negb (startswith "select" lower_sql) then false
    else if negb (contains (lower table_name) lower_sql) then false
    else true.

(** What a call of the synthesizer does: it asks the model and it sleeps. *)
Inductive gen_event :=
  | Asked (attempt_no : nat) (prompt : string)
  | Slept (seconds : Z).

(** The chat model as the synthesizer sees it: the content of the reply to
    the prompt at a given attempt, or the exception of the call. *)
Class ChatModel := reply : nat → string → res pyval.

Section Generate.
Context `{model : ChatModel}.

Definition sql_prompt (user_query schema table_name : string) : string :=
  LF +:+ "You are an SQL expert. Convert the user request into a valid SQL query ONLY." +:+ LF
  +:+ LF
  +:+ "TABLE NAME: " +:+ table_name +:+ LF
  +:+ LF
  +:+ "COLUMNS (use exactly these, comma-separated):" +:+ LF
  +:+ schema +:+ LF
  +:+ LF
  +:+ "RULES:" +:+ LF
  +:+ "- Use only the table `" +:+ table_name +:+ "`." +:+ LF
  +:+ "- Do not guess or rename columns; use exactly the provided column names." +:+ LF
  +:+ "- Return ONLY the SQL query. No explanation, no commentary, no code fences." +:+ LF
  +:+ "- Ensure the query is a SELECT statement and references the table name." +:+ LF
  +:+ LF
  +:+ "User Query: " +:+ user_query +:+ LF.

(** The body of the [try] block of one attempt. *)
Definition attempt_once (attempt_no : nat) (prompt table_name : string)
    : Py (list gen_event) string :=
  content ← (λ log, (reply attempt_no prompt, log ++ [Asked attempt_no prompt]));
  raw_sql ← strip <$> as_str "strip" content;
  let sql := _clean_model_sql raw_sql in
  if negb (_validate_sql sql table_name) then
    raise (Exn RuntimeError ("Validation failed for generated SQL: " +:+ sql))
  else mret sql.

(** The [for attempt in range(max_retries + 1)] loop from round
    [attempt_no] on, with [remaining] rounds left; [None] when the rounds are used up. *)
Fixpoint attempts (remaining attempt_no : nat) (prompt table_name : string)
    : Py (list gen_event) (option string) :=
  match remaining with
  | O => mret None
  | S remaining' =>
      r ← attempt (attempt_once attempt_no prompt table_name);
      match r with
      | inr sql => mret (Some sql)
      | inl e =>
          (λ log, (Ok (), log ++ [Slept (1 + Z.of_nat attempt_no * 2)]));;
          attempts remaining' (S attempt_no) prompt table_name
      end
  end.

Definition generate_sql_gemini (user_query schema table_name : string)
    (max_retries : Z) : Py (list gen_event) string :=
  let prompt := sql_prompt user_query schema table_name in
  r ← attempts (Z.to_nat (max_retries + 1)) 0 prompt table_name;
  match r with
  | Some sql => mret sql
  | None =>
      raise (Exn RuntimeError
               ("Failed to generate SQL after " +:+ pretty (max_retries + 1)
                +:+ " attempts"))
  end.

(** The attempt with number [n] fails: the call raises, the content is
    [None], or the cleaned text does not pass the validation. *)
Definition attempt_fails (n : nat) (prompt table_name : string) : Prop :=
  match reply n prompt with
  | Ok (PyStr content) =>
      _validate_sql (_clean_model_sql (strip content)) table_name = false
  | _ => True
  end.

End Generate.

(** What [n] failed rounds from round [start] on leave in the log. *)
Definition failed_rounds (start n : nat) (prompt : string) : list gen_event :=
  flat_map (λ i, [Asked i prompt; Slept (1 + Z.of_nat i * 2)]) (seq start n).

(** The seconds an event sleeps. *)
Definition slept (ev : gen_event) : Z :=
  match ev with Slept s => s | Asked _ _ => 0 end.

Definition nonspace (c : ascii) : bool := negb (isspace c).

(** A word: not empty, and free of white space. *)
Definition word (w : string) : Prop := w ≠ "" ∧ all_chars nonspace w = true.

End SqlGenerator.

(** ** What an upload leaves in the database *)

(** The rows a database operation writes. *)
Definition op_rows (op : db_op) : list (list pyval) :=
  match op with
  | ToSql _ _ _ chunk => records chunk
  | _ => []
  end.

(** All the rows written, in the order of the writes. *)
Definition written (ops : list db_op) : list (list pyval) := flat_map op_rows ops.

(** A write to [table] under [schema], of at least one row and at most [n]. *)
Definition chunk_write (table : string) (schema : option string) (n : Z)
    (mode : if_exists) (op : db_op) : Prop :=
  ∃ chunk, op = ToSql table mode schema chunk ∧ 0 < len chunk ≤ n.

(** ** The endpoint that runs the graph *)

Module Api.

(** One stored turn: what the user asked and what the bot said. *)
Record turn := Turn { user : string; bot : string }.

(** [conversation_history]: the turns of every session. *)
Abbreviation history := (gmap string (list turn)).

(** What the endpoint sends back: the 200 body, the 400 of the input check,
    or the 500 of the catch-all. *)
Inductive response :=
  | Answered (answer : string) (conversation : list turn)
  | BadRequest (detail : string)
  | ServerError (detail : string).

(** The memory rebuilt from the stored turns. *)
Definition memory_text (conversation : list turn) : string :=
  join LF ((λ t, "User: " +:+ user t +:+ LF +:+ "AI: " +:+ bot t) <$> conversation).

(** [result.get("answer") or result.get("response") or "No response generated."] *)
Definition pick_answer (result : AgentState) : string :=
  let answer := match result !! "answer" with Some v => v | None => PyNone end in
  if truthy answer then py_str answer
  else
    let response := match result !! "response" with Some v => v | None => PyNone end in
    if truthy response then py_str response else "No response generated.".

Section Endpoint.
Context `{backend : Collaborators}.

(** [ask_graph_agent]: the response, the history and the external calls
    after the request. *)
Definition ask_graph_agent (user_query session_id : string) (h : history)
    (tr : list event) : response * history * list event :=
  let session_id := if bool_decide (session_id = "") then "default" else session_id in
  if bool_decide (user_query = "") || bool_decide (strip user_query = "") then
    (BadRequest "user_query is required", h, tr)
  else
    let previous_conversation := match h !! session_id with Some c => c | None => [] end in
    let state : AgentState :=
      <["memory" := PyStr (memory_text previous_conversation)]>
        (<["query" := PyStr user_query]> ∅) in
    match graph_agent (World state tr) with
    | (Ok result, w) =>
        let answer := pick_answer result in
        let conversation := previous_conversation ++ [Turn user_query answer] in
        (Answered answer conversation, <[session_id := conversation]> h, trace w)
    | (Raise e, w) => (ServerError (exn_msg e), h, trace w)
    end.

End Endpoint.

End Api.

(** ** More scripted collaborators *)

(** A backend whose synthesizer and model calls raise. *)
Definition silent_backend : Collaborators :=
  scripted ["reviews"] (Raise (Exn OtherException "Connection error."))
    (Raise (Exn RuntimeError "Failed to generate SQL after 3 attempts"))
    (Ok "[]").

(** A model that times out, then answers with a statement that is not a
    SELECT, then with a fenced SELECT. *)
Definition flaky_model : SqlGenerator.ChatModel := λ n _,
  match n with
  | 0%nat => Raise (Exn OtherException "Request timed out.")
  | 1%nat => Ok (PyStr "DROP TABLE reviews")
  | _ => Ok (PyStr ("```sql" +:+ LF +:+ "SELECT *   FROM reviews" +:+ LF +:+ "```"))
  end.

(** A model that is never reached. *)
Definition dead_model : SqlGenerator.ChatModel := λ _ _,
  Raise (Exn OtherException "Connection error.").

(** As [one_file], with a database that refuses every write. *)
Definition refused_writes (max_rows chunk_size : Z) (file : string) (df : DataFrame)
    : UploadEnv := {|
  MAX_ROWS := max_rows;
  CHUNK_SIZE := chunk_size;
  DEFAULT_SCHEMA := PyStr "dbo";
  path_exists := λ p, bool_decide (p = file);
  path_name := id;
  path_suffix := λ _, ".csv";
  secure_filename := id;
  read_csv := λ _, Ok df;
  read_excel := λ _, Raise (Exn ValueError "Excel file format cannot be determined");
  get_engine := Ok ();
  engine_begin := Ok ();
  conn_execute := λ _, Ok ();
  to_sql := λ _ _ _ _, Raise (Exn SQLAlchemyError "String or binary data would be truncated.");
|}.

(** A state as the endpoint builds it: the query and an empty memory. *)
Definition fresh_request (query : string) : AgentState :=
  <["memory" := PyStr ""]> (<["query" := PyStr query]> ∅).
(** ** Facts about the string methods *)

Example lower_ex : lower "Show MALE Reviewers" = "show male reviewers".
Proof. reflexivity. Qed.
Example upper_ex : upper "select * from t where a=1" = "SELECT * FROM T WHERE A=1".
Proof. reflexivity. Qed.
Example strip_ex : strip ("  a = 1 " +:+ LF) = "a = 1".
Proof. reflexivity. Qed.
Example rstrip_chars_ex : rstrip_chars ";" "SELECT 1;;" = "SELECT 1".
Proof. reflexivity. Qed.
Example split_ex1 : split "WHERE" (Some 1%nat) "a WHERE b WHERE c" = ["a "; " b WHERE c"].
Proof. reflexivity. Qed.
Example split_ex2 : split "," None "a,b,,c" = ["a"; "b"; ""; "c"].
Proof. reflexivity. Qed.
Example split_ex3 : split "WHERE" (Some 1%nat) "select 1 where x" = ["select 1 where x"].
Proof. reflexivity. Qed.
Example replace_ex1 : replace "Female" "Male" "g = 'Female' OR h = 'Female'" = "g = 'Male' OR h = 'Male'".
Proof. reflexivity. Qed.
Example replace_ex2 : replace "aa" "b" "aaaaa" = "bba".
Proof. reflexivity. Qed.
Example contains_ex : contains "male" "show female reviewers" = true.
Proof. reflexivity. Qed.

Section StringFacts.
Implicit Types (s p sep a b r : string) (c : ascii).

Lemma app_cons c a b : String c a +:+ b = String c (a +:+ b).
Proof. reflexivity. Qed.

Lemma app_empty_l s : "" +:+ s = s.
Proof. reflexivity. Qed.

Lemma app_empty_r s : s +:+ "" = s.
Proof. induction s as [|c s IH]; [done|]. by rewrite app_cons, IH. Qed.

Lemma app_assoc_str a b r : (a +:+ b) +:+ r = a +:+ (b +:+ r).
Proof. induction a as [|c a IH]; [done|]. by rewrite !app_cons, IH. Qed.

Lemma length_app_str a b :
  String.length (a +:+ b) = (String.length a + String.length b)%nat.
Proof. induction a as [|c a IH]; [done|]. rewrite app_cons. simpl. by rewrite IH. Qed.

Lemma strip_prefix_app p r : strip_prefix p (p +:+ r) = Some r.
Proof.
  induction p as [|c p IH]; [done|].
  rewrite app_cons. simpl. by rewrite decide_True.
Qed.

Lemma strip_prefix_Some p s r : strip_prefix p s = Some r → s = p +:+ r.
Proof.
  revert s. induction p as [|c p IH]; intros s Hs.
  - simpl in Hs. by inversion Hs.
  - destruct s as [|d s]; [done|]. simpl in Hs.
    destruct (decide (c = d)) as [->|]; [|done].
    rewrite app_cons. f_equal. by apply IH.
Qed.

Lemma find_first_Some sep s a b :
  find_first sep s = Some (a, b) → s = a +:+ sep +:+ b.
Proof.
  revert a. induction s as [|c s IH]; intros a Hf; simpl in Hf.
  - destruct (strip_prefix sep "") as [r|] eqn:Hp; [|done].
    inversion Hf; subst. rewrite app_empty_l. by apply strip_prefix_Some.
  - destruct (strip_prefix sep (String c s)) as [r|] eqn:Hp.
    + inversion Hf; subst. rewrite app_empty_l. by apply strip_prefix_Some.
    + destruct (find_first sep s) as [[a' b']|] eqn:Hr; [|done].
      inversion Hf; subst. rewrite app_cons. f_equal. by apply IH.
Qed.

Lemma find_first_app sep a b : is_Some (find_first sep (a +:+ sep +:+ b)).
Proof.
  induction a as [|c a IH].
  - rewrite app_empty_l.
    destruct sep as [|d sep]; [by destruct b|].
    rewrite app_cons. unfold find_first; fold find_first.
    rewrite <-app_cons, strip_prefix_app. eauto.
  - rewrite app_cons. simpl.
    destruct (strip_prefix sep _); [eauto|].
    destruct IH as [[a' b'] ->]. eauto.
Qed.

(** [sep in s] holds exactly when [s] can be cut around a copy of [sep]. *)
Lemma contains_spec sep s :
  contains sep s = true ↔ ∃ a b, s = a +:+ sep +:+ b.
Proof.
  unfold contains. split.
  - destruct (find_first sep s) as [[a b]|] eqn:Hf; [|done].
    intros _. exists a, b. by apply find_first_Some.
  - intros (a & b & ->). by destruct (find_first_app sep a b) as [? ->].
Qed.

Lemma contains_trans p sep s :
  contains p sep = true → contains sep s = true → contains p s = true.
Proof.
  rewrite !contains_spec. intros (a1 & b1 & ->) (a2 & b2 & ->).
  exists (a2 +:+ a1), (b1 +:+ b2). by rewrite !app_assoc_str.
Qed.

Lemma contains_false_find sep s : contains sep s = false → find_first sep s = None.
Proof. unfold contains. by destruct (find_first sep s). Qed.

(** Without an occurrence of the separator [split] returns the text alone,
    whatever the limit. *)
Lemma split_no_occurrence sep maxsplit s :
  contains sep s = false → split sep maxsplit s = [s].
Proof.
  intros Hc%contains_false_find. unfold split.
  destruct (String.length s); simpl; [done|].
  rewrite Hc. by destruct maxsplit as [[|?]|].
Qed.

(** With an occurrence, [split(sep, 1)] cuts at the leftmost one. *)
Lemma split_once sep s a b :
  find_first sep s = Some (a, b) → sep ≠ "" →
  split sep (Some 1%nat) s = [a; b].
Proof.
  intros Hf Hsep. unfold split.
  destruct (String.length s) as [|n] eqn:Hn.
  - destruct s; [|done]. destruct sep; [done|]. done.
  - simpl. rewrite Hf. by destruct n.
Qed.

(** The first piece of an unlimited [split] is the text before the
    leftmost separator, or the whole text. *)
Lemma split_head sep s :
  split sep None s !! 0%nat =
    Some (match find_first sep s with Some (a, _) => a | None => s end).
Proof.
  unfold split. destruct (String.length s) as [|n] eqn:Hn; simpl.
  - destruct s; [|done]. by destruct (find_first sep "") as [[a b]|] eqn:Hf;
      [apply find_first_Some in Hf; destruct a|].
  - by destruct (find_first sep s) as [[a b]|].
Qed.

(** Without an occurrence of the pattern [replace] changes nothing. *)
Lemma replace_no_occurrence old new s :
  contains old s = false → replace old new s = s.
Proof.
  intros Hc%contains_false_find. unfold replace.
  destruct (String.length s); simpl; [done|]. by rewrite Hc.
Qed.

Lemma contains_nonempty sep s : contains sep s = true → sep ≠ "" → s ≠ "".
Proof.
  intros (a & b & ->)%contains_spec Hsep Hs.
  apply (f_equal String.length) in Hs. rewrite !length_app_str in Hs.
  destruct sep; [done|]. simpl in Hs. lia.
Qed.

Lemma map_chars_app f a b : map_chars f (a +:+ b) = map_chars f a +:+ map_chars f b.
Proof. induction a as [|c a IH]; [done|]. rewrite !app_cons. simpl. by rewrite IH. Qed.

Lemma upper_empty s : upper s = "" → s = "".
Proof. by destruct s. Qed.

End StringFacts.

(** ** The two replace passes of the gender swap *)

Section ReplaceFacts.
Implicit Types (s old new a b r : string) (c : ascii).

Lemma strip_prefix_empty old : old ≠ "" → strip_prefix old "" = None.
Proof. by destruct old. Qed.

Lemma find_first_empty old : old ≠ "" → find_first old "" = None.
Proof. intros Hold. simpl. by rewrite strip_prefix_empty. Qed.

Lemma find_first_shorter old s a b :
  old ≠ "" → find_first old s = Some (a, b) → (String.length b < String.length s)%nat.
Proof.
  intros Hold ->%find_first_Some. rewrite !length_app_str.
  destruct old; [done|]. simpl. lia.
Qed.

Lemma replace_go_enough old new n m s :
  old ≠ "" → (String.length s ≤ n)%nat → (String.length s ≤ m)%nat →
  replace_go n old new s = replace_go m old new s.
Proof.
  intros Hold. revert m s. induction n as [|n IH]; intros m s Hn Hm.
  - destruct s; [|simpl in Hn; lia]. destruct m; cbn [replace_go]; [done|].
    by rewrite find_first_empty.
  - destruct m as [|m].
    + destruct s; [|simpl in Hm; lia]. cbn [replace_go].
      by rewrite find_first_empty.
    + cbn [replace_go]. destruct (find_first old s) as [[a b]|] eqn:Hf; [|done].
      apply find_first_shorter in Hf; [|done].
      do 2 f_equal. apply IH; lia.
Qed.

Lemma replace_cut old new s a b :
  old ≠ "" → find_first old s = Some (a, b) →
  replace old new s = a +:+ new +:+ replace old new b.
Proof.
  intros Hold Hf. unfold replace.
  destruct (String.length s) as [|n] eqn:Hn.
  - destruct s; [|done]. by rewrite find_first_empty in Hf.
  - cbn [replace_go]. rewrite Hf. do 2 f_equal.
    apply find_first_shorter in Hf; [|done].
    apply replace_go_enough; [done|lia|lia].
Qed.

(** [replace] read from the left, one position at a time. *)
Lemma replace_scan old new s :
  old ≠ "" →
  replace old new s =
    match strip_prefix old s with
    | Some r => new +:+ replace old new r
    | None =>
        match s with
        | EmptyString => EmptyString
        | String c s' => String c (replace old new s')
        end
    end.
Proof.
  intros Hold. destruct (strip_prefix old s) as [r|] eqn:Hp.
  - rewrite (replace_cut old new s "" r); [done..|].
    destruct s; simpl; by rewrite Hp.
  - destruct s as [|c s]; [done|].
    destruct (find_first old s) as [[a b]|] eqn:Hf.
    + rewrite (replace_cut old new (String c s) (String c a) b); [|done|].
      * rewrite (replace_cut old new s a b) by done. done.
      * simpl. simpl in Hp. by rewrite Hp, Hf.
    + rewrite !replace_no_occurrence; [done|..].
      * unfold contains. by rewrite Hf.
      * unfold contains. simpl. simpl in Hp. by rewrite Hp, Hf.
Qed.

Lemma replace_skip old new c d old' s :
  old = String d old' → c ≠ d →
  replace old new (String c s) = String c (replace old new s).
Proof.
  intros -> Hcd. rewrite replace_scan by done. simpl.
  by rewrite decide_False by done.
Qed.

Lemma replace_hit old new r :
  old ≠ "" → replace old new (old +:+ r) = new +:+ replace old new r.
Proof. intros Hold. by rewrite replace_scan, strip_prefix_app. Qed.

End ReplaceFacts.

Section GenderSwap.
Implicit Types (s old new a b r p : string) (c : ascii).

(** A replacement whose first character is not in [p] cannot make [p]
    appear at the head of the text. *)
Lemma replace_keeps_head old new e new' p s :
  old ≠ "" → new = String e new' → mem_char e p = false →
  is_Some (strip_prefix p (replace old new s)) → is_Some (strip_prefix p s).
Proof.
  intros Hold -> . revert s. induction p as [|c p IH]; intros s Hmem Hhead.
  - simpl. eauto.
  - simpl in Hmem. destruct (decide (e = c)) as [|Hec]; [done|].
    rewrite replace_scan in Hhead by done.
    destruct (strip_prefix old s) as [r|].
    + rewrite app_cons in Hhead. simpl in Hhead.
      rewrite decide_False in Hhead by done. by destruct Hhead.
    + destruct s as [|d s]; [by destruct Hhead|].
      simpl in Hhead |- *. destruct (decide (c = d)); [|by destruct Hhead].
      by apply IH.
Qed.

(** The two passes of the source are one pass from the left in which
    "Female" becomes "Male", "'female'" becomes "'male'" and every other
    character is copied. *)
Lemma two_passes_one_pass n s :
  (String.length s ≤ n)%nat →
  replace "'female'" "'male'" (replace "Female" "Male" s) = one_pass_go n s.
Proof.
  revert s. induction n as [|n IH]; intros s Hn.
  - by destruct s; [|simpl in Hn; lia].
  - cbn [one_pass_go].
    destruct (strip_prefix "Female" s) as [r|] eqn:Hbig.
    { apply strip_prefix_Some in Hbig as ->.
      rewrite replace_hit by done.
      change ("Male" +:+ ?x) with (String "M" (String "a" (String "l" (String "e" x)))).
      rewrite !(replace_skip "'female'" "'male'" _ "'" "female'") by done.
      rewrite IH; [done|]. rewrite length_app_str in Hn. simpl in Hn. lia. }
    destruct (strip_prefix "'female'" s) as [r|] eqn:Hsmall.
    { apply strip_prefix_Some in Hsmall as ->.
      change ("'female'" +:+ r) with
        (String "'" (String "f" (String "e" (String "m" (String "a"
           (String "l" (String "e" (String "'" r)))))))).
      rewrite !(replace_skip "Female" "Male" _ "F" "emale") by done.
      change (String "'" (String "f" (String "e" (String "m" (String "a"
                (String "l" (String "e" (String "'" ?x))))))))
        with ("'female'" +:+ x).
      rewrite replace_hit by done.
      rewrite IH; [done|]. rewrite length_app_str in Hn. simpl in Hn. lia. }
    destruct s as [|c s]; [done|].
    assert (strip_prefix "'female'" (replace "Female" "Male" (String c s)) = None)
      as Hhead.
    { destruct (strip_prefix _ (replace _ _ _)) eqn:Hp; [|done].
      destruct (replace_keeps_head "Female" "Male" "M" "ale" "'female'" (String c s))
        as [? Hs]; [done..|by eexists|congruence]. }
    rewrite (replace_scan "'female'") by done. rewrite Hhead.
    rewrite (replace_scan "Female") by done. rewrite Hbig.
    f_equal. apply IH. simpl in Hn. lia.
Qed.

Lemma gender_swap_one_pass_correct s :
  replace "'female'" "'male'" (replace "Female" "Male" s) = gender_swap_one_pass s.
Proof. by apply two_passes_one_pass. Qed.

End GenderSwap.

(** ** Case-insensitive search *)

Section CaseFacts.
Implicit Types (s p a b w x y : string).

Lemma map_chars_app_inv f s x y :
  map_chars f s = x +:+ y →
  ∃ s1 s2, s = s1 +:+ s2 ∧ map_chars f s1 = x ∧ map_chars f s2 = y.
Proof.
  revert s. induction x as [|c x IH]; intros s Hs.
  - by exists "", s.
  - destruct s as [|d s]; [done|]. rewrite app_cons in Hs. simpl in Hs.
    injection Hs as Hc Hs. destruct (IH s Hs) as (s1 & s2 & -> & <- & <-).
    exists (String d s1), s2. by rewrite <- Hc.
Qed.

(** [p] occurs in the mapped text exactly when a piece of the text maps to
    [p]; with [upper], when the text has [p] in some casing. *)
Lemma contains_map_chars f p s :
  contains p (map_chars f s) = true ↔ ∃ a w b, s = a +:+ w +:+ b ∧ map_chars f w = p.
Proof.
  rewrite contains_spec. split.
  - intros (x & y & Hs).
    apply map_chars_app_inv in Hs as (a & s2 & -> & <- & Hs2).
    apply map_chars_app_inv in Hs2 as (w & b & -> & <- & <-). by exists a, w, b.
  - intros (a & w & b & -> & <-).
    exists (map_chars f a), (map_chars f b). by rewrite !map_chars_app.
Qed.

End CaseFacts.

(** ** Running the stages *)

(** Unfolds the monad and the state primitives; the string methods stay
    folded. *)
Ltac py_simpl :=
  cbv beta iota zeta delta
    [mbind fmap mret Py_bind Py_fmap Py_ret attempt call dict_get dict_get_or
     getitem setitem return_state as_str raise list_index state trace
     negb andb orb py_str or_empty].

Ltac py_rw H := rewrite H; py_simpl.

Lemma truthy_PyStr s : s ≠ "" → truthy (PyStr s) = true.
Proof. by destruct s. Qed.

Lemma truthy_false_cases v :
  truthy v = false → v = PyNone ∨ v = PyStr "".
Proof. destruct v as [|[|c s]]; naive_solver. Qed.

Section AgentFacts.
Context `{backend : Collaborators}.
Implicit Types (st : AgentState) (tr : list event).

(** Fetching the schemas never raises and leaves the dictionary alone. *)
Lemma fetch_schemas_ok ts acc st tr :
  ∃ d tr', fetch_schemas ts acc (World st tr) = (Ok d, World st tr').
Proof.
  revert acc tr. induction ts as [|t ts IH]; intros acc tr.
  - by exists acc, tr.
  - simpl. py_simpl. destruct (get_table_schema t); apply IH.
Qed.

(** The gender-swap branch, from the test the code makes. *)
Lemma gender_swap_branch st tr table sch q f :
  table_selected st table →
  get_table_schema table = Ok sch →
  st !! "filters" = Some (PyStr f) → f ≠ "" →
  st !! "query" = Some (PyStr q) →
  contains "male" (lower q) = true →
  let new_filters := replace "'female'" "'male'" (replace "Female" "Male" f) in
  let st' :=
    <["sql" := PyStr ("SELECT * FROM " +:+ table +:+ " WHERE " +:+ new_filters +:+ ";")]>
      (<["last_action" := PyStr "select_records"]>
         (<["filters" := PyStr new_filters]> st)) in
  generate_sql_step (World st tr) = (Ok st', World st' (tr ++ [FetchSchema table])).
Proof.
  intros [Ht Hne] Hs Hf Hfne Hq Hm.
  unfold generate_sql_step. py_simpl.
  py_rw Ht. rewrite (truthy_PyStr table) by done. py_simpl.
  py_rw Hs. py_rw Hq. rewrite Hm, Hf. py_simpl.
  rewrite (truthy_PyStr f) by done. py_simpl. py_rw Hf.
  by destruct (if bool_decide _ then _ else _).
Qed.

(** C1. With a table selected, the schema fetched, non-empty filters and a
    lower-cased query that contains "male", [generate_sql_step] takes the
    gender-swap branch: the only external call is the schema lookup (no
    model call), [sql] is exactly "SELECT * FROM <table> WHERE <new>;"
    where <new> is the old filters with every "Female" replaced by "Male"
    and every "'female'" by "'male'" and nothing else changed, <new> is
    stored in [filters], and [last_action] is "select_records".  No other
    field changes. *)
Theorem generate_sql_step_gender_swap st tr table sch q f :
  table_selected st table →
  get_table_schema table = Ok sch →
  st !! "filters" = Some (PyStr f) → f ≠ "" →
  st !! "query" = Some (PyStr q) →
  contains "male" (lower q) = true →
  let new_filters := gender_swap_one_pass f in
  let st' :=
    <["sql" := PyStr ("SELECT * FROM " +:+ table +:+ " WHERE " +:+ new_filters +:+ ";")]>
      (<["last_action" := PyStr "select_records"]>
         (<["filters" := PyStr new_filters]> st)) in
  generate_sql_step (World st tr) = (Ok st', World st' (tr ++ [FetchSchema table])).
Proof.
  intros Ht Hs Hf Hfne Hq Hm. rewrite <- gender_swap_one_pass_correct.
  by apply (gender_swap_branch st tr table sch q f).
Qed.

(** C9. The guard is a substring test, so a query that mentions "female"
    passes the "male" test too: it takes the gender-swap branch, rewrites
    Female to Male in the stored filters and makes no model call. *)
Theorem generate_sql_step_female_swaps st tr table sch q f :
  table_selected st table →
  get_table_schema table = Ok sch →
  st !! "filters" = Some (PyStr f) → f ≠ "" →
  st !! "query" = Some (PyStr q) →
  contains "female" (lower q) = true →
  let new_filters := replace "'female'" "'male'" (replace "Female" "Male" f) in
  let st' :=
    <["sql" := PyStr ("SELECT * FROM " +:+ table +:+ " WHERE " +:+ new_filters +:+ ";")]>
      (<["last_action" := PyStr "select_records"]>
         (<["filters" := PyStr new_filters]> st)) in
  generate_sql_step (World st tr) = (Ok st', World st' (tr ++ [FetchSchema table])).
Proof.
  intros Ht Hs Hf Hfne Hq Hfem.
  apply (gender_swap_branch st tr table sch q f); try done.
  by apply (contains_trans "male" "female").
Qed.

(** The breakdown branch, with the group column as the code picks it. *)
Lemma breakdown_branch st tr table sch q f :
  table_selected st table →
  get_table_schema table = Ok sch →
  st !! "filters" = Some (PyStr f) → f ≠ "" →
  st !! "query" = Some (PyStr q) →
  contains "break down" (lower q) = true →
  contains "male" (lower q) = false →
  let group_col :=
    if contains "userage" (lower q) then PyStr "userage"
    else if contains "usergender" (lower q) then PyStr "usergender"
    else match st !! "last_group" with
         | Some v => v
         | None => PyStr "usergender"
         end in
  let st' :=
    <["sql" := PyStr (breakdown_sql (py_str group_col) table f)]>
      (<["last_group" := group_col]>
         (<["last_action" := PyStr "breakdown"]> st)) in
  generate_sql_step (World st tr) = (Ok st', World st' (tr ++ [FetchSchema table])).
Proof.
  intros [Ht Hne] Hs Hf Hfne Hq Hb Hm.
  unfold generate_sql_step. py_simpl.
  py_rw Ht. rewrite (truthy_PyStr table) by done. py_simpl.
  py_rw Hs. py_rw Hq. rewrite Hm, Hb, Hf. py_simpl.
  rewrite (truthy_PyStr f) by done. py_simpl.
  destruct (contains "userage" (lower q)); py_simpl.
  { py_rw Hf. by destruct (if bool_decide _ then _ else _). }
  destruct (contains "usergender" (lower q)); py_simpl.
  { py_rw Hf. by destruct (if bool_decide _ then _ else _). }
  py_rw Hf. by destruct (if bool_decide _ then _ else _).
Qed.

(** C3. In the breakdown branch with "userage" in the lower-cased query,
    the statement selects exactly userage and the four aggregates, filters
    by the stored filters, groups by userage and orders by review_count
    descending; [last_action] becomes "breakdown" and [last_group]
    "userage". *)
Theorem generate_sql_step_breakdown_userage st tr table sch q f :
  table_selected st table →
  get_table_schema table = Ok sch →
  st !! "filters" = Some (PyStr f) → f ≠ "" →
  st !! "query" = Some (PyStr q) →
  contains "break down" (lower q) = true →
  contains "male" (lower q) = false →
  contains "userage" (lower q) = true →
  let sql :=
    LF +:+ "SELECT userage," +:+ LF
    +:+ "       COUNT(*) AS review_count," +:+ LF
    +:+ "       AVG(reviewrating) AS avg_rating," +:+ LF
    +:+ "       MIN(reviewrating) AS min_rating," +:+ LF
    +:+ "       MAX(reviewrating) AS max_rating" +:+ LF
    +:+ "FROM " +:+ table +:+ LF
    +:+ "WHERE " +:+ f +:+ LF
    +:+ "GROUP BY userage" +:+ LF
    +:+ "ORDER BY review_count DESC;" +:+ LF in
  let st' :=
    <["sql" := PyStr sql]>
      (<["last_group" := PyStr "userage"]>
         (<["last_action" := PyStr "breakdown"]> st)) in
  generate_sql_step (World st tr) = (Ok st', World st' (tr ++ [FetchSchema table])).
Proof.
  intros Ht Hs Hf Hfne Hq Hb Hm Hu.
  pose proof (breakdown_branch st tr table sch q f Ht Hs Hf Hfne Hq Hb Hm) as Hrun.
  rewrite Hu in Hrun. exact Hrun.
Qed.

(** C4, amended.  In the breakdown branch the group column is userage if
    the lower-cased query contains "userage"; otherwise usergender if it
    contains "usergender"; otherwise the value [last_group] holds, and
    usergender when the state has no [last_group].  The test for userage
    comes first.  The column is stored in [last_group] and used in the
    SELECT list and the GROUP BY of the statement. *)
Theorem generate_sql_step_breakdown_group st tr table sch q f :
  table_selected st table →
  get_table_schema table = Ok sch →
  st !! "filters" = Some (PyStr f) → f ≠ "" →
  st !! "query" = Some (PyStr q) →
  contains "break down" (lower q) = true →
  contains "male" (lower q) = false →
  let group_col :=
    if contains "userage" (lower q) then PyStr "userage"
    else if contains "usergender" (lower q) then PyStr "usergender"
    else match st !! "last_group" with
         | Some v => v
         | None => PyStr "usergender"
         end in
  let st' :=
    <["sql" := PyStr (breakdown_sql (py_str group_col) table f)]>
      (<["last_group" := group_col]>
         (<["last_action" := PyStr "breakdown"]> st)) in
  generate_sql_step (World st tr) = (Ok st', World st' (tr ++ [FetchSchema table])).
Proof. apply breakdown_branch. Qed.

(** C5. With a table already selected, [identify_table_step] returns the
    state as it is and calls nothing: no listing, no schema, no model. *)
Theorem identify_table_step_sticky st tr table :
  table_selected st table →
  identify_table_step (World st tr) = (Ok st, World st tr).
Proof.
  intros [Ht Hne]. unfold identify_table_step. py_simpl.
  py_rw Ht. by rewrite (truthy_PyStr table).
Qed.

(** C6. With no table selected, the stage returns normally with the state
    unchanged, so [table_name] stays unset, when the listing fails, when
    it is empty, and when the model's stripped answer is "none" or is not
    one of the listed names. *)
Theorem identify_table_step_leaves_unset st tr :
  table_unset st →
  ((∃ e, get_all_table_names = Raise e)
   ∨ get_all_table_names = Ok []
   ∨ (∃ all_tables,
        get_all_table_names = Ok all_tables ∧ all_tables ≠ [] ∧
        ∀ prompt, ∃ content,
          chat_completion "You are an intelligent SQL assistant." prompt
            = Ok (PyStr content)
          ∧ (strip content = "none" ∨ strip content ∉ all_tables))) →
  ∃ tr', identify_table_step (World st tr) = (Ok st, World st tr')
         ∧ table_unset st.
Proof.
  intros Hun Hcases.
  assert (truthy (match st !! "table_name" with Some v => v | None => PyNone end)
          = false) as Hfalse.
  { unfold table_unset in Hun. by destruct (st !! "table_name"). }
  unfold identify_table_step. py_simpl. rewrite Hfalse. py_simpl.
  destruct Hcases as [[e He]|[Hempty|(all_tables & Hl & Hne & Hchat)]].
  - py_rw He. eauto.
  - py_rw Hempty. eauto.
  - py_rw Hl. rewrite bool_decide_eq_false_2 by done.
    destruct (fetch_schemas_ok all_tables [] st (tr ++ [ListTables]))
      as (d & tr1 & Hfetch).
    py_rw Hfetch.
    match goal with
    | |- context [chat_completion ?s ?p] =>
        destruct (Hchat p) as (content & Hans & Hbad); rewrite Hans
    end.
    py_simpl.
    destruct Hbad as [Hnone|Hnot].
    + rewrite Hnone. change (bool_decide (lower "none" = "none")) with true.
      py_simpl. eauto.
    + rewrite (bool_decide_eq_false_2 (strip content ∈ all_tables)) by done.
      destruct (bool_decide _); py_simpl; eauto.
Qed.

(** C7. When the query fails, the stage does not raise: a database error
    is stored in [result] after "Database error: ", any other error after
    "Execution error: ", and the state is returned. *)
Theorem execute_sql_step_failure_caught st tr sql e :
  st !! "sql" = Some (PyStr sql) → sql ≠ "" →
  run_query sql = Raise e →
  let report (label : string) := <["result" := PyStr (label +:+ exn_msg e)]> st in
  (exn_cls e = SQLAlchemyError →
     execute_sql_step (World st tr)
     = (Ok (report "Database error: "),
        World (report "Database error: ") (tr ++ [RunQuery sql])))
  ∧ (exn_cls e ≠ SQLAlchemyError →
     execute_sql_step (World st tr)
     = (Ok (report "Execution error: "),
        World (report "Execution error: ") (tr ++ [RunQuery sql]))).
Proof.
  intros Hsql Hne Hfail report.
  assert (∀ label, (if decide (exn_cls e = SQLAlchemyError)
                    then "Database error: " else "Execution error: ") = label →
          execute_sql_step (World st tr)
          = (Ok (report label), World (report label) (tr ++ [RunQuery sql]))) as Hrun.
  { intros label <-. unfold execute_sql_step, execute_try, execute_except. py_simpl.
    py_rw Hsql. rewrite (truthy_PyStr sql) by done. py_simpl.
    py_rw Hfail. by destruct (decide _). }
  split; intros Hcls; apply Hrun; by destruct (decide _).
Qed.

(** The run of the stage when the guard sees WHERE and the split does
    not. *)
Lemma where_case_mismatch_run st tr sql rs :
  st !! "sql" = Some (PyStr sql) →
  run_query sql = Ok rs →
  contains "WHERE" (upper sql) = true →
  contains "WHERE" sql = false →
  let stored := <["result" := PyStr (str_rows rs)]> st in
  let st' := <["result" := PyStr "Execution error: list index out of range"]> stored in
  execute_try sql (World st tr)
    = (Raise (Exn IndexError "list index out of range"),
       World stored (tr ++ [RunQuery sql]))
  ∧ execute_sql_step (World st tr) = (Ok st', World st' (tr ++ [RunQuery sql]))
  ∧ st' !! "filters" = st !! "filters".
Proof.
  intros Hsql Hrun Hup Hlit stored st'.
  assert (sql ≠ "") as Hne.
  { intros ->. done. }
  assert (execute_try sql (World st tr)
          = (Raise (Exn IndexError "list index out of range"),
             World stored (tr ++ [RunQuery sql]))) as Htry.
  { unfold execute_try. py_simpl. py_rw Hrun. rewrite Hup.
    by rewrite (split_no_occurrence "WHERE" (Some 1%nat) sql Hlit). }
  split; [exact Htry|]. split.
  - unfold execute_sql_step. py_simpl. py_rw Hsql.
    rewrite (truthy_PyStr sql) by done. py_simpl. by rewrite Htry.
  - unfold st', stored. by rewrite !lookup_insert_ne.
Qed.

(** C10. The query succeeds on a statement that has "where" in some
    casing (a piece of it upper-cases to WHERE) but not the literal
    upper-case word.  Then the [try] block stores the rows in [result] and
    raises an index error; the catch-all clause replaces the stored rows by
    "Execution error: list index out of range"; [filters] is as before. *)
Theorem execute_sql_step_where_case_mismatch st tr sql rs :
  st !! "sql" = Some (PyStr sql) →
  run_query sql = Ok rs →
  (∃ a w b, sql = a +:+ w +:+ b ∧ upper w = "WHERE") →
  contains "WHERE" sql = false →
  let stored := <["result" := PyStr (str_rows rs)]> st in
  let st' := <["result" := PyStr "Execution error: list index out of range"]> stored in
  execute_try sql (World st tr)
    = (Raise (Exn IndexError "list index out of range"),
       World stored (tr ++ [RunQuery sql]))
  ∧ execute_sql_step (World st tr) = (Ok st', World st' (tr ++ [RunQuery sql]))
  ∧ st' !! "filters" = st !! "filters".
Proof.
  intros Hsql Hrun Hcase Hlit. apply where_case_mismatch_run; try done.
  by apply contains_map_chars.
Qed.

(** When the literal upper-case WHERE is present, the filters are what
    follows its leftmost occurrence, cut at the first GROUP BY, then at
    the first ORDER BY, and stripped. *)
Lemma execute_sql_step_captures_filters st tr sql rs a b :
  st !! "sql" = Some (PyStr sql) →
  run_query sql = Ok rs →
  find_first "WHERE" sql = Some (a, b) →
  let before (sep s : string) :=
    match find_first sep s with Some (x, _) => x | None => s end in
  let st' :=
    <["filters" := PyStr (strip (before "ORDER BY" (before "GROUP BY" b)))]>
      (<["result" := PyStr (str_rows rs)]> st) in
  execute_sql_step (World st tr) = (Ok st', World st' (tr ++ [RunQuery sql])).
Proof.
  intros Hsql Hrun Hfind before st'.
  assert (contains "WHERE" sql = true) as Hlit by (unfold contains; by rewrite Hfind).
  assert (sql ≠ "") as Hne by (by apply (contains_nonempty "WHERE")).
  assert (contains "WHERE" (upper sql) = true) as Hup.
  { apply contains_spec in Hlit as (x & y & ->). apply contains_spec.
    exists (upper x), (upper y). unfold upper. by rewrite !map_chars_app. }
  unfold execute_sql_step, execute_try. py_simpl. py_rw Hsql.
  rewrite (truthy_PyStr sql) by done. py_simpl. py_rw Hrun. rewrite Hup.
  rewrite (split_once "WHERE" sql a b) by done. change ([a; b] !! 1%nat) with (Some b). py_simpl.
  rewrite split_head. py_simpl. rewrite split_head. by py_simpl.
Qed.

End AgentFacts.


(** ** The upload helper *)

Section UploadFacts.
Context `{env : UploadEnv}.

Ltac up_simpl :=
  cbv beta iota zeta delta
    [mbind fmap mret Py_bind Py_fmap Py_ret attempt raise db_call pure_call negb].

(** C8. A file that parses to more rows than [MAX_ROWS] makes
    [upload_new_table] raise a validation error, and the database is not
    touched: no engine is taken, no table dropped, nothing written. *)
Theorem upload_new_table_row_limit fuel file_path table_name name safe df ops :
  path_exists file_path = true →
  _validate_filename (path_name file_path) = Ok name →
  _ensure_table_name_safe table_name = Ok safe →
  _read_table_from_file file_path = Ok df →
  MAX_ROWS < len df →
  upload_new_table fuel file_path table_name ops
  = (Raise (Exn ValueError
              ("File too large: " +:+ pretty (len df)
               +:+ " rows exceeds max allowed " +:+ pretty MAX_ROWS)),
     ops).
Proof.
  intros Hex Hname Hsafe Hread Hbig.
  unfold upload_new_table. rewrite Hex. up_simpl.
  rewrite Hname, Hsafe, Hread. up_simpl.
  by rewrite (proj2 (Z.ltb_lt _ _) Hbig).
Qed.

(** With a positive chunk size and a database that accepts every write,
    [total - start] rounds end the chunk loop. *)
Lemma write_chunks_ends fuel df table_name schema total start first ops :
  0 < CHUNK_SIZE →
  (∀ mode chunk, to_sql table_name mode schema chunk = Ok ()) →
  (Z.to_nat (total - start) ≤ fuel)%nat →
  ∃ ops', write_chunks fuel df table_name schema total start first ops
          = (Ok (Some ()), ops').
Proof.
  intros Hpos Hok. revert start first ops.
  induction fuel as [|fuel IH]; intros start first ops Hfuel; simpl.
  - destruct (Z.ltb_spec start total); [lia|]. by eexists.
  - destruct (Z.ltb_spec start total); [|by eexists].
    up_simpl. rewrite Hok. apply IH. lia.
Qed.

End UploadFacts.
(** ** Concrete runs *)

Lemma generate_sql_step_gender_swap_witness :
  let st := follow_up "Show male instead" in
  let new_filters := gender_swap_one_pass "usergender = 'Female'" in
  let st' :=
    <["sql" := PyStr ("SELECT * FROM " +:+ "reviews" +:+ " WHERE " +:+ new_filters +:+ ";")]>
      (<["last_action" := PyStr "select_records"]>
         (<["filters" := PyStr new_filters]> st)) in
  new_filters = "usergender = 'Male'"
  ∧ generate_sql_step (backend := reviews_backend) (World st [])
    = (Ok st', World st' ([] ++ [FetchSchema "reviews"])).
Proof.
  intros st new_filters st'. split; [reflexivity|].
  apply (generate_sql_step_gender_swap (backend := reviews_backend)
           st [] "reviews" reviews_schema "Show male instead" "usergender = 'Female'").
  - split; [reflexivity|discriminate].
  - reflexivity.
  - reflexivity.
  - discriminate.
  - reflexivity.
  - reflexivity.
Defined.

Lemma generate_sql_step_female_swaps_witness :
  let st := follow_up "show female reviewers" in
  let new_filters :=
    replace "'female'" "'male'" (replace "Female" "Male" "usergender = 'Female'") in
  let st' :=
    <["sql" := PyStr ("SELECT * FROM " +:+ "reviews" +:+ " WHERE " +:+ new_filters +:+ ";")]>
      (<["last_action" := PyStr "select_records"]>
         (<["filters" := PyStr new_filters]> st)) in
  new_filters = "usergender = 'Male'"
  ∧ generate_sql_step (backend := reviews_backend) (World st [])
    = (Ok st', World st' ([] ++ [FetchSchema "reviews"])).
Proof.
  intros st new_filters st'. split; [reflexivity|].
  apply (generate_sql_step_female_swaps (backend := reviews_backend)
           st [] "reviews" reviews_schema "show female reviewers" "usergender = 'Female'").
  - split; [reflexivity|discriminate].
  - reflexivity.
  - reflexivity.
  - discriminate.
  - reflexivity.
  - reflexivity.
Defined.

Lemma generate_sql_step_breakdown_userage_witness :
  let st := follow_up "Break down by userage" in
  let sql :=
    LF +:+ "SELECT userage," +:+ LF
    +:+ "       COUNT(*) AS review_count," +:+ LF
    +:+ "       AVG(reviewrating) AS avg_rating," +:+ LF
    +:+ "       MIN(reviewrating) AS min_rating," +:+ LF
    +:+ "       MAX(reviewrating) AS max_rating" +:+ LF
    +:+ "FROM " +:+ "reviews" +:+ LF
    +:+ "WHERE " +:+ "usergender = 'Female'" +:+ LF
    +:+ "GROUP BY userage" +:+ LF
    +:+ "ORDER BY review_count DESC;" +:+ LF in
  let st' :=
    <["sql" := PyStr sql]>
      (<["last_group" := PyStr "userage"]>
         (<["last_action" := PyStr "breakdown"]> st)) in
  generate_sql_step (backend := reviews_backend) (World st [])
  = (Ok st', World st' ([] ++ [FetchSchema "reviews"])).
Proof.
  intros st sql st'.
  apply (generate_sql_step_breakdown_userage (backend := reviews_backend)
           st [] "reviews" reviews_schema "Break down by userage" "usergender = 'Female'").
  - split; [reflexivity|discriminate].
  - reflexivity.
  - reflexivity.
  - discriminate.
  - reflexivity.
  - reflexivity.
  - reflexivity.
  - reflexivity.
Defined.

(** A follow-up that names no column reuses the column of the last
    breakdown. *)
Lemma generate_sql_step_breakdown_group_witness :
  let st := <["last_group" := PyStr "userage"]> (follow_up "break down again") in
  let st' :=
    <["sql" := PyStr (breakdown_sql "userage" "reviews" "usergender = 'Female'")]>
      (<["last_group" := PyStr "userage"]>
         (<["last_action" := PyStr "breakdown"]> st)) in
  generate_sql_step (backend := reviews_backend) (World st [])
  = (Ok st', World st' ([] ++ [FetchSchema "reviews"])).
Proof.
  intros st st'.
  apply (generate_sql_step_breakdown_group (backend := reviews_backend)
           st [] "reviews" reviews_schema "break down again" "usergender = 'Female'").
  - split; [reflexivity|discriminate].
  - reflexivity.
  - reflexivity.
  - discriminate.
  - reflexivity.
  - reflexivity.
  - reflexivity.
Defined.

(** C4 as stated fails: it puts the test for "usergender" first, so a query
    that names both columns would group by usergender.  The query
    "break down by usergender and userage" groups by userage. *)
Lemma breakdown_usergender_first_refuted :
  ¬ (∀ (backend : Collaborators) (st : AgentState) tr table sch q f,
       table_selected st table →
       get_table_schema table = Ok sch →
       st !! "filters" = Some (PyStr f) → f ≠ "" →
       st !! "query" = Some (PyStr q) →
       contains "break down" (lower q) = true →
       contains "male" (lower q) = false →
       contains "usergender" (lower q) = true →
       ∃ st' tr', generate_sql_step (World st tr) = (Ok st', World st' tr')
                  ∧ st' !! "last_group" = Some (PyStr "usergender")).
Proof.
  intros Hclaim.
  pose (q := "break down by usergender and userage").
  assert (table_selected (follow_up q) "reviews") as Ht
    by (split; [reflexivity|discriminate]).
  destruct (Hclaim reviews_backend (follow_up q) [] "reviews" reviews_schema
              q "usergender = 'Female'" Ht)
    as (st' & tr' & Hrun & Hgroup); try reflexivity; try discriminate.
  rewrite (breakdown_branch (backend := reviews_backend) (follow_up q) []
             "reviews" reviews_schema q "usergender = 'Female'" Ht)
    in Hrun; try reflexivity; try discriminate.
  injection Hrun as <- _.
  change (contains "userage" (lower q)) with true in Hgroup.
  cbv iota in Hgroup. by rewrite lookup_insert_ne, lookup_insert_eq in Hgroup.
Qed.

Lemma identify_table_step_sticky_witness :
  let st := follow_up "and the men?" in
  identify_table_step (backend := reviews_backend) (World st []) = (Ok st, World st []).
Proof.
  intros st.
  apply (identify_table_step_sticky (backend := reviews_backend) st [] "reviews").
  split; [reflexivity|discriminate].
Defined.

Lemma identify_table_step_leaves_unset_witness :
  let backend :=
    scripted ["reviews"; "users"] (Ok (PyStr " orders ")) (Ok PyNone) (Ok "[]") in
  let st : AgentState := {["query" := PyStr "list the orders"]} in
  ∃ tr', identify_table_step (World st []) = (Ok st, World st tr') ∧ table_unset st.
Proof.
  intros backend st.
  apply (identify_table_step_leaves_unset (backend := backend) st []).
  - exact I.
  - right; right. exists ["reviews"; "users"].
    split; [reflexivity|]. split; [discriminate|].
    intros prompt. exists " orders ". split; [reflexivity|].
    right. change (strip " orders ") with "orders". intros Hin.
    repeat (apply elem_of_cons in Hin as [Hin|Hin]; [discriminate|]).
    by apply elem_of_nil in Hin.
Defined.

Lemma execute_sql_step_failure_caught_witness :
  let e := Exn SQLAlchemyError "Invalid column name 'usergendr'." in
  let backend := scripted ["reviews"] (Ok PyNone) (Ok PyNone) (Raise e) in
  let st := with_sql "SELECT usergendr FROM reviews" in
  let st' := <["result" := PyStr ("Database error: " +:+ exn_msg e)]> st in
  execute_sql_step (World st [])
  = (Ok st', World st' ([] ++ [RunQuery "SELECT usergendr FROM reviews"])).
Proof.
  intros e backend st st'.
  apply (execute_sql_step_failure_caught (backend := backend) st []
           "SELECT usergendr FROM reviews" e).
  - reflexivity.
  - discriminate.
  - reflexivity.
  - reflexivity.
Defined.

Lemma execute_sql_step_where_case_mismatch_witness :
  let sql := "select * from reviews where usergender = 'Female'" in
  let st := <["filters" := PyStr "userage > 30"]> (with_sql sql) in
  let stored := <["result" := PyStr "[{'n': 1}]"]> st in
  let st' := <["result" := PyStr "Execution error: list index out of range"]> stored in
  execute_try (backend := reviews_backend) sql (World st [])
    = (Raise (Exn IndexError "list index out of range"),
       World stored ([] ++ [RunQuery sql]))
  ∧ execute_sql_step (backend := reviews_backend) (World st [])
    = (Ok st', World st' ([] ++ [RunQuery sql]))
  ∧ st' !! "filters" = st !! "filters".
Proof.
  intros sql st stored st'.
  apply (execute_sql_step_where_case_mismatch (backend := reviews_backend)
           st [] sql "[{'n': 1}]").
  - reflexivity.
  - reflexivity.
  - exists "select * from reviews ", "where", " usergender = 'Female'".
    split; reflexivity.
  - reflexivity.
Defined.

(** The sample of the specification: the upper-case statement has its
    filters captured, whatever was stored before. *)
Example execute_sql_step_capture_sample :
  let sql := "SELECT * FROM t WHERE a = 1 GROUP BY b ORDER BY c" in
  let st := <["filters" := PyStr "userage > 30"]> (with_sql sql) in
  let st' := <["filters" := PyStr "a = 1"]> (<["result" := PyStr "[{'n': 1}]"]> st) in
  execute_sql_step (backend := reviews_backend) (World st [])
  = (Ok st', World st' ([] ++ [RunQuery sql])).
Proof.
  intros sql st st'.
  apply (execute_sql_step_captures_filters (backend := reviews_backend)
           st [] sql "[{'n': 1}]" "SELECT * FROM t " " a = 1 GROUP BY b ORDER BY c");
    reflexivity.
Qed.

(** C2, where it fails.  The statement "select * from t where a = 1" runs
    successfully and contains WHERE case-insensitively, yet the filters are
    not re-derived: the stored filters stay, "a = 1" is not captured, and
    the rows in [result] are replaced by an error text. *)
Theorem execute_sql_step_lowercase_where_not_captured :
  let sql := "select * from t where a = 1" in
  let st := <["filters" := PyStr "userage > 30"]> (with_sql sql) in
  let st' :=
    <["result" := PyStr "Execution error: list index out of range"]>
      (<["result" := PyStr "[{'n': 1}]"]> st) in
  run_query (Collaborators := reviews_backend) sql = Ok "[{'n': 1}]"
  ∧ contains "WHERE" (upper sql) = true
  ∧ execute_sql_step (backend := reviews_backend) (World st [])
    = (Ok st', World st' [RunQuery sql])
  ∧ st' !! "filters" = Some (PyStr "userage > 30")
  ∧ st' !! "filters" ≠ Some (PyStr "a = 1").
Proof.
  intros sql st st'.
  destruct (where_case_mismatch_run (backend := reviews_backend)
              st [] sql "[{'n': 1}]") as (_ & Hrun & _); try reflexivity.
  split; [reflexivity|]. split; [reflexivity|]. split; [exact Hrun|].
  split; [reflexivity|discriminate].
Qed.

Lemma upload_new_table_row_limit_witness :
  let env := one_file 2 50000 "reviews.csv" three_rows in
  upload_new_table 0 "reviews.csv" "Reviews" []
  = (Raise (Exn ValueError
              ("File too large: " +:+ pretty (len three_rows)
               +:+ " rows exceeds max allowed " +:+ pretty MAX_ROWS)),
     []).
Proof.
  intros env.
  apply (upload_new_table_row_limit (env := env) 0 "reviews.csv" "Reviews"
           "reviews.csv" "reviews" three_rows []).
  - reflexivity.
  - reflexivity.
  - reflexivity.
  - reflexivity.
  - reflexivity.
Defined.

(** Under the cap the same file is written: the repeated row is dropped,
    the table is dropped and then written in chunks of one row. *)
Example upload_new_table_sample :
  let env := one_file 3 1 "reviews.csv" three_rows in
  let cols := ["user_name"; "user_age"] in
  upload_new_table 2 "reviews.csv" " Reviews " []
  = (Ok (Some "Uploaded 2 rows to table 'reviews' successfully"),
     [GetEngine; Begin;
      Execute "IF OBJECT_ID(N'reviews', N'U') IS NOT NULL DROP TABLE reviews;";
      ToSql "reviews" Replace None
        {| columns := cols; records := [[PyStr "ann"; PyStr "31"]] |};
      ToSql "reviews" Append None
        {| columns := cols; records := [[PyStr "bob"; PyNone]] |}]).
Proof. vm_compute. reflexivity. Qed.

(** A chunk size of zero never ends the loop: every round writes an empty
    chunk and stays at row 0. *)
Example upload_new_table_zero_chunk :
  let env := one_file 3 0 "reviews.csv" three_rows in
  fst (upload_new_table 5 "reviews.csv" "reviews" []) = Ok None.
Proof. vm_compute. reflexivity. Qed.
Section FrameRules.
Context `{backend : Collaborators}.
Implicit Types (K : list string) (w : world).

Lemma frames_ret K {A} (a : A) : frames K (mret a : Py world A).
Proof. by intros w. Qed.

Lemma frames_raise K {A} e : frames K (raise e : Py world A).
Proof. by intros w. Qed.

Lemma frames_bind K {A B} (m : Py world A) (f : A → Py world B) :
  frames K m → (∀ a, frames K (f a)) → frames K (m ≫= f).
Proof.
  intros Hm Hf w. specialize (Hm w). unfold mbind, Py_bind.
  destruct (m w) as [[a|e] w1]; simpl in Hm; [|done].
  destruct (Hf a w1) as [Hk Ht]. destruct Hm as [Hk1 Ht1]. split.
  - intros k Hin. by rewrite Hk, Hk1.
  - by etrans.
Qed.

Lemma frames_fmap K {A B} (g : A → B) (m : Py world A) :
  frames K m → frames K (g <$> m).
Proof.
  intros Hm w. specialize (Hm w). unfold fmap, Py_fmap.
  by destruct (m w) as [[a|e] w1].
Qed.

Lemma frames_attempt K {A} (m : Py world A) : frames K m → frames K (attempt m).
Proof.
  intros Hm w. specialize (Hm w). unfold attempt.
  by destruct (m w) as [[a|e] w1].
Qed.

Lemma frames_call K {A} ev (r : res A) : frames K (call ev r).
Proof. intros w. split; [done|]. by apply prefix_app_r. Qed.

Lemma frames_dict_get K k : frames K (dict_get k).
Proof. by intros w. Qed.

Lemma frames_dict_get_or K k d : frames K (dict_get_or k d).
Proof. by intros w. Qed.

Lemma frames_getitem K k : frames K (getitem k).
Proof. intros w. unfold getitem. by destruct (state w !! k). Qed.

Lemma frames_setitem K k v : k ∈ K → frames K (setitem k v).
Proof.
  intros Hin w. split; [|done]. intros k' Hout. simpl.
  apply lookup_insert_ne. by intros ->.
Qed.

Lemma frames_return_state K : frames K return_state.
Proof. by intros w. Qed.

Lemma frames_as_str K attr v : frames K (as_str attr v : Py world string).
Proof. by destruct v. Qed.

Lemma frames_list_index K {A} (xs : list A) i : frames K (list_index xs i : Py world A).
Proof. unfold list_index. by destruct (xs !! i). Qed.

Lemma never_raises_ret {A} (a : A) : never_raises (mret a : Py world A).
Proof. intros w. by exists a. Qed.

Lemma never_raises_bind {A B} (m : Py world A) (f : A → Py world B) :
  never_raises m → (∀ a, never_raises (f a)) → never_raises (m ≫= f).
Proof.
  intros Hm Hf w. destruct (Hm w) as [a Ha]. unfold mbind, Py_bind.
  destruct (m w) as [r w1]. simpl in Ha. subst r. apply Hf.
Qed.

Lemma never_raises_attempt {A} (m : Py world A) : never_raises (attempt m).
Proof. intros w. unfold attempt. destruct (m w) as [[a|e] w1]; by eexists. Qed.

Lemma never_raises_dict_get k : never_raises (dict_get k).
Proof. intros w. by eexists. Qed.

Lemma never_raises_dict_get_or k d : never_raises (dict_get_or k d).
Proof. intros w. by eexists. Qed.

Lemma never_raises_setitem k v : never_raises (setitem k v).
Proof. intros w. by eexists. Qed.

Lemma never_raises_return_state : never_raises return_state.
Proof. intros w. by eexists. Qed.

Lemma returns_its_state_return : returns_its_state return_state.
Proof. intros w a. simpl. by intros [= <-]. Qed.

Lemma returns_its_state_bind {A} (m : Py world A) (f : A → Py world AgentState) :
  (∀ a, returns_its_state (f a)) → returns_its_state (m ≫= f).
Proof.
  intros Hf w a. unfold mbind, Py_bind.
  destruct (m w) as [[x|e] w1]; [apply Hf|done].
Qed.

End FrameRules.

Ltac stage_step :=
  lazymatch goal with
  | |- frames _ (_ ≫= _) => apply frames_bind; [|intros ?]
  | |- frames _ (_ <$> _) => apply frames_fmap
  | |- frames _ (attempt _) => apply frames_attempt
  | |- frames _ (mret _) => apply frames_ret
  | |- frames _ (raise _) => apply frames_raise
  | |- frames _ (call _ _) => apply frames_call
  | |- frames _ (dict_get _) => apply frames_dict_get
  | |- frames _ (dict_get_or _ _) => apply frames_dict_get_or
  | |- frames _ (getitem _) => apply frames_getitem
  | |- frames _ (setitem _ _) => apply frames_setitem; set_solver
  | |- frames _ return_state => apply frames_return_state
  | |- frames _ (as_str _ _) => apply frames_as_str
  | |- frames _ (list_index _ _) => apply frames_list_index
  | |- frames _ (if ?b then _ else _) => destruct b
  | |- frames _ (match ?x with _ => _ end) => destruct x
  | |- never_raises (_ ≫= _) => apply never_raises_bind; [|intros ?]
  | |- never_raises (attempt _) => apply never_raises_attempt
  | |- never_raises (mret _) => apply never_raises_ret
  | |- never_raises (dict_get _) => apply never_raises_dict_get
  | |- never_raises (dict_get_or _ _) => apply never_raises_dict_get_or
  | |- never_raises (setitem _ _) => apply never_raises_setitem
  | |- never_raises return_state => apply never_raises_return_state
  | |- never_raises (if ?b then _ else _) => destruct b
  | |- never_raises (match ?x with _ => _ end) => destruct x
  | |- returns_its_state (_ ≫= _) => apply returns_its_state_bind; intros ?
  | |- returns_its_state return_state => apply returns_its_state_return
  | |- returns_its_state (if ?b then _ else _) => destruct b
  | |- returns_its_state (match ?x with _ => _ end) => destruct x
  end.

Section StageFrames.
Context `{backend : Collaborators}.

Lemma fetch_schemas_frames K ts acc : frames K (fetch_schemas ts acc).
Proof.
  revert acc. induction ts as [|t ts IH]; intros acc; simpl.
  - apply frames_ret.
  - stage_step; [repeat stage_step|]. cbv zeta. apply IH.
Qed.

Lemma fetch_schemas_never_raises ts acc : never_raises (fetch_schemas ts acc).
Proof.
  revert acc. induction ts as [|t ts IH]; intros acc; simpl.
  - apply never_raises_ret.
  - stage_step; [repeat stage_step|]. cbv zeta. apply IH.
Qed.

Lemma identify_frames : frames ["table_name"] identify_table_step.
Proof.
  unfold identify_table_step.
  repeat first [apply fetch_schemas_frames | progress cbv zeta | stage_step].
Qed.

Lemma identify_never_raises : never_raises identify_table_step.
Proof.
  unfold identify_table_step.
  repeat first [apply fetch_schemas_never_raises | progress cbv zeta | stage_step].
Qed.

Lemma identify_returns_state : returns_its_state identify_table_step.
Proof.
  unfold identify_table_step.
  repeat first [progress cbv zeta | stage_step].
Qed.

Lemma execute_frames : frames ["result"; "filters"] execute_sql_step.
Proof.
  unfold execute_sql_step, execute_try, execute_except.
  repeat first [progress cbv zeta | stage_step].
Qed.

Lemma execute_never_raises : never_raises execute_sql_step.
Proof.
  unfold execute_sql_step, execute_except.
  repeat first [progress cbv zeta | stage_step].
Qed.

Lemma execute_returns_state : returns_its_state execute_sql_step.
Proof. unfold execute_sql_step. repeat first [progress cbv zeta | stage_step]. Qed.

Lemma generate_frames :
  frames ["sql"; "filters"; "last_action"; "last_group"] generate_sql_step.
Proof.
  unfold generate_sql_step.
  repeat first [progress cbv zeta | stage_step].
Qed.

Lemma generate_returns_state : returns_its_state generate_sql_step.
Proof. unfold generate_sql_step. repeat first [progress cbv zeta | stage_step]. Qed.

Lemma summarize_frames : frames ["answer"; "memory"] summarize_step.
Proof.
  unfold summarize_step, summarize_try.
  repeat first [progress cbv zeta | stage_step].
Qed.

Lemma summarize_never_raises : never_raises summarize_step.
Proof.
  unfold summarize_step.
  repeat first [progress cbv zeta | stage_step].
Qed.

Lemma summarize_returns_state : returns_its_state summarize_step.
Proof. unfold summarize_step. repeat first [progress cbv zeta | stage_step]. Qed.

End StageFrames.

(** ** Stripping and leftmost occurrences *)

Section StripFacts.
Implicit Types (s sep a b r x y : string) (c : ascii) (p : ascii → bool).

Lemma strip_prefix_app_head sep x y r :
  strip_prefix sep x = Some r → strip_prefix sep (x +:+ y) = Some (r +:+ y).
Proof.
  intros ->%strip_prefix_Some. by rewrite app_assoc_str, strip_prefix_app.
Qed.

Lemma contains_app_l sep x y : contains sep x = true → contains sep (x +:+ y) = true.
Proof.
  rewrite !contains_spec. intros (a & b & ->). exists a, (b +:+ y).
  by rewrite !app_assoc_str.
Qed.

Lemma contains_app_r sep x y : contains sep y = true → contains sep (x +:+ y) = true.
Proof.
  rewrite !contains_spec. intros (a & b & ->). exists (x +:+ a), b.
  by rewrite !app_assoc_str.
Qed.

Lemma contains_false_app_l sep x y :
  contains sep (x +:+ y) = false → contains sep x = false.
Proof.
  intros Hxy. destruct (contains sep x) eqn:Hx; [|done].
  by rewrite (contains_app_l sep x y Hx) in Hxy.
Qed.

(** The text before the leftmost occurrence holds no occurrence. *)
Lemma find_first_leftmost sep s a b :
  sep ≠ "" → find_first sep s = Some (a, b) → contains sep a = false.
Proof.
  intros Hsep. revert a. induction s as [|c s IH]; intros a Hf; simpl in Hf.
  - destruct (strip_prefix sep "") as [r|] eqn:Hp; [|done].
    by rewrite strip_prefix_empty in Hp.
  - destruct (strip_prefix sep (String c s)) as [r|] eqn:Hp.
    + injection Hf as <- <-. unfold contains. by rewrite find_first_empty.
    + destruct (find_first sep s) as [[a' b']|] eqn:Hr; [|done].
      injection Hf as <- <-. specialize (IH a' eq_refl).
      pose proof (find_first_Some _ _ _ _ Hr) as Hs.
      unfold contains in *. cbn [find_first].
      destruct (strip_prefix sep (String c a')) as [r|] eqn:Hp'.
      { rewrite Hs, <- app_cons in Hp.
        by rewrite (strip_prefix_app_head _ _ _ _ Hp') in Hp. }
      by destruct (find_first sep a') as [[? ?]|].
Qed.

(** The first piece of a split holds no separator. *)
Lemma before_free sep s :
  sep ≠ "" →
  contains sep (match find_first sep s with Some (x, _) => x | None => s end) = false.
Proof.
  intros Hsep. destruct (find_first sep s) as [[a b]|] eqn:Hf.
  - by apply (find_first_leftmost sep s a b).
  - unfold contains. by rewrite Hf.
Qed.

Lemma before_prefix sep s :
  ∃ r, s = (match find_first sep s with Some (x, _) => x | None => s end) +:+ r.
Proof.
  destruct (find_first sep s) as [[a b]|] eqn:Hf.
  - exists (sep +:+ b). by apply find_first_Some.
  - exists "". by rewrite app_empty_r.
Qed.

Lemma lstrip_by_suffix p s : ∃ l, s = l +:+ lstrip_by p s.
Proof.
  induction s as [|c s [l IH]]; [by exists ""|]. simpl.
  destruct (p c); [|by exists ""]. exists (String c l). by rewrite app_cons, <- IH.
Qed.

Lemma rstrip_by_prefix p s : ∃ r, s = rstrip_by p s +:+ r.
Proof.
  induction s as [|c s [r IH]]; [by exists ""|]. simpl.
  destruct (rstrip_by p s) as [|d t] eqn:Ht.
  - destruct (p c); [by exists (String c s)|]. exists s. done.
  - exists r. by rewrite app_cons, <- IH.
Qed.

(** The stripped text is a piece of the text. *)
Lemma strip_piece s : ∃ l r, s = l +:+ strip s +:+ r.
Proof.
  unfold strip. destruct (lstrip_by_suffix isspace s) as [l Hl].
  destruct (rstrip_by_prefix isspace (lstrip_by isspace s)) as [r Hr].
  exists l, r. by rewrite <- Hr.
Qed.

Lemma contains_strip sep s : contains sep s = false → contains sep (strip s) = false.
Proof.
  intros Hs. destruct (contains sep (strip s)) eqn:Hc; [|done].
  destruct (strip_piece s) as (l & r & Heq). rewrite Heq in Hs.
  by rewrite (contains_app_r sep l _ (contains_app_l sep _ r Hc)) in Hs.
Qed.

Lemma lstrip_by_head p s :
  match lstrip_by p s with EmptyString => True | String c _ => p c = false end.
Proof.
  induction s as [|c s IH]; [done|]. simpl. by destruct (p c) eqn:Hc; [|simpl].
Qed.

Lemma rstrip_by_head p c s :
  p c = false → ∃ t, rstrip_by p (String c s) = String c t.
Proof. intros Hc. simpl. rewrite Hc. destruct (rstrip_by p s); by eexists. Qed.

Lemma rstrip_by_idem p s : rstrip_by p (rstrip_by p s) = rstrip_by p s.
Proof.
  induction s as [|c s IH]; [done|]. simpl.
  destruct (rstrip_by p s) as [|d t] eqn:Ht.
  - destruct (p c) eqn:Hc; [done|]. simpl. by rewrite Hc.
  - change (rstrip_by p (String c (String d t))) with
      (match rstrip_by p (String d t) with
       | EmptyString => if p c then EmptyString else String c EmptyString
       | r => String c r
       end).
    by rewrite IH.
Qed.

(** Stripping twice changes nothing more. *)
Lemma strip_idem s : strip (strip s) = strip s.
Proof.
  unfold strip. pose proof (lstrip_by_head isspace s) as Hhead.
  destruct (lstrip_by isspace s) as [|c t] eqn:Hl; [done|].
  destruct (rstrip_by_head isspace c t Hhead) as [u Hu]. rewrite Hu.
  cbn [lstrip_by]. rewrite Hhead, <- Hu. apply rstrip_by_idem.
Qed.

End StripFacts.

(** ** The stages, whatever the collaborators do *)

Section StageTheorems.
Context `{backend : Collaborators}.
Implicit Types (st : AgentState) (tr : list event) (w : world) (K : list string).

Lemma stage_run_at K (m : Py world AgentState) st tr :
  frames K m → returns_its_state m →
  (∃ a, (m (World st tr)).1 = Ok a) →
  ∃ st' tr', m (World st tr) = (Ok st', World st' (tr ++ tr'))
             ∧ ∀ k, k ∉ K → st' !! k = st !! k.
Proof.
  intros Hf Hr [a Ha]. specialize (Hf (World st tr)). specialize (Hr (World st tr)).
  destruct (m (World st tr)) as [r [st' tr1]]. simpl in *. subst r.
  rewrite (Hr a eq_refl). destruct Hf as [Hk [tr' ->]]. by exists st', tr'.
Qed.

Lemma fetch_schemas_run ts acc st tr :
  ∃ d tr', fetch_schemas ts acc (World st tr) = (Ok d, World st (tr ++ tr')).
Proof.
  destruct (fetch_schemas_ok ts acc st tr) as (d & tr1 & Hrun).
  destruct (fetch_schemas_frames [] ts acc (World st tr)) as [_ [tr' Htr]].
  rewrite Hrun in Htr. simpl in Htr. subst tr1. by exists d, tr'.
Qed.

Lemma ok_bind {A B} (m : Py world A) (f : A → Py world B) w a w' :
  m w = (Ok a, w') → (∃ b, (f a w').1 = Ok b) → ∃ b, ((m ≫= f) w).1 = Ok b.
Proof. intros Hm Hf. unfold mbind, Py_bind. by rewrite Hm. Qed.

Lemma generate_ok_unless_query_none st tr :
  st !! "query" ≠ Some PyNone →
  ∃ a, (generate_sql_step (World st tr)).1 = Ok a.
Proof.
  intros Hq. unfold generate_sql_step.
  eapply ok_bind; [reflexivity|]. cbv beta zeta. cbn [state].
  destruct (negb _); [by eexists|].
  destruct (get_table_schema _) as [sch|e].
  - eapply ok_bind; [reflexivity|]. cbv beta zeta.
    eapply ok_bind; [reflexivity|]. cbv beta zeta. cbn [state].
    destruct (st !! "query") as [[|q]|]; [done|..].
    all: eapply ok_bind; [reflexivity|].
    all: apply (never_raises_bind _ _ (never_raises_attempt _)).
    all: intros ?; apply never_raises_return_state.
  - eapply ok_bind; [reflexivity|]. by eexists.
Qed.

Lemma identify_run st tr :
  ∃ st' tr', identify_table_step (World st tr) = (Ok st', World st' (tr ++ tr'))
             ∧ ∀ k, k ≠ "table_name" → st' !! k = st !! k.
Proof.
  destruct (stage_run_at ["table_name"] identify_table_step st tr)
    as (st' & tr' & Hrun & Hk);
    [apply identify_frames|apply identify_returns_state|apply identify_never_raises|].
  exists st', tr'. split; [done|]. intros k Hne. apply Hk.
  by intros ->%list_elem_of_singleton.
Qed.

(** [identify_table_step] returns normally whatever the catalog and the
    model do, and writes no field but [table_name]. *)
Theorem identify_table_step_total st tr :
  ∃ st' tr', identify_table_step (World st tr) = (Ok st', World st' (tr ++ tr'))
             ∧ ∀ k, k ≠ "table_name" → st' !! k = st !! k.
Proof. apply identify_run. Qed.

(** The table [identify_table_step] leaves in the state is the one it found
    there or one of the listed names: an answer of the model that is not in
    the listing is never stored. *)
Theorem identify_table_step_picks_listed st tr :
  let st' := state (identify_table_step (World st tr)).2 in
  st' = st
  ∨ ∃ all_tables t,
      get_all_table_names = Ok all_tables ∧ t ∈ all_tables
      ∧ st' = <["table_name" := PyStr t]> st.
Proof.
  unfold identify_table_step. py_simpl.
  destruct (truthy _); [by left|].
  destruct get_all_table_names as [all_tables|e] eqn:Hl; py_simpl; [|by left].
  destruct (bool_decide (all_tables = [])); [by left|].
  destruct (fetch_schemas_ok all_tables [] st (tr ++ [ListTables]))
    as (d & tr1 & Hfetch).
  py_rw Hfetch. destruct (chat_completion _ _) as [[|content]|e]; py_simpl;
    [by left| |by left].
  destruct (bool_decide (lower (strip content) = "none")); py_simpl; [by left|].
  destruct (bool_decide (strip content ∈ all_tables)) eqn:Hin; py_simpl; [|by left].
  right. exists all_tables, (strip content).
  by apply bool_decide_eq_true in Hin.
Qed.

(** When the model's stripped answer is a listed name other than "none" in
    any casing, [identify_table_step] stores it in [table_name] and changes
    nothing else. *)
Theorem identify_table_step_selects st tr all_tables content :
  table_unset st →
  get_all_table_names = Ok all_tables →
  (∀ prompt, chat_completion "You are an intelligent SQL assistant." prompt
             = Ok (PyStr content)) →
  strip content ∈ all_tables →
  lower (strip content) ≠ "none" →
  let st' := <["table_name" := PyStr (strip content)]> st in
  ∃ tr', identify_table_step (World st tr) = (Ok st', World st' (tr ++ tr')).
Proof.
  intros Hun Hl Hchat Hin Hnone.
  assert (truthy (match st !! "table_name" with Some v => v | None => PyNone end)
          = false) as Hfalse.
  { unfold table_unset in Hun. by destruct (st !! "table_name"). }
  assert (all_tables ≠ []) as Hne by (intros ->; by apply elem_of_nil in Hin).
  unfold identify_table_step. py_simpl. rewrite Hfalse. py_simpl.
  py_rw Hl. rewrite bool_decide_eq_false_2 by done.
  destruct (fetch_schemas_run all_tables [] st (tr ++ [ListTables]))
    as (d & tr1 & Hfetch).
  py_rw Hfetch. py_rw Hchat.
  rewrite (bool_decide_eq_false_2 (lower (strip content) = "none")) by done.
  rewrite (bool_decide_eq_true_2 (strip content ∈ all_tables)) by done.
  py_simpl. eexists. by rewrite <- !app_assoc.
Qed.


(** Without a selected table, or when the schema of the selected table
    cannot be fetched, [generate_sql_step] returns the state unchanged; it
    neither asks the synthesizer nor sets [sql]. *)
Theorem generate_sql_step_skips st tr :
  table_unset st
  ∨ (∃ table e, table_selected st table ∧ get_table_schema table = Raise e) →
  ∃ tr', generate_sql_step (World st tr) = (Ok st, World st (tr ++ tr'))
         ∧ ∀ ev, ev ∈ tr' → ∃ table, ev = FetchSchema table.
Proof.
  intros [Hun|(table & e & [Ht Hne] & Hs)]; unfold generate_sql_step; py_simpl.
  - assert (truthy (match st !! "table_name" with Some v => v | None => PyNone end)
            = false) as ->.
    { unfold table_unset in Hun. by destruct (st !! "table_name"). }
    py_simpl. exists []. rewrite app_nil_r. split; [done|]. by intros ev ?%elem_of_nil.
  - py_rw Ht. rewrite (truthy_PyStr table) by done. py_simpl. py_rw Hs.
    exists [FetchSchema table]. split; [done|].
    intros ev ->%list_elem_of_singleton. by eexists.
Qed.

(** The query text is lower-cased outside the [try] block: when the state
    holds [None] under [query], a table is selected and its schema is
    fetched, [generate_sql_step] raises the attribute error to its caller. *)
Theorem generate_sql_step_query_none_raises st tr table sch :
  table_selected st table →
  get_table_schema table = Ok sch →
  st !! "query" = Some PyNone →
  generate_sql_step (World st tr)
  = (Raise (Exn AttributeError "'NoneType' object has no attribute 'lower'"),
     World st (tr ++ [FetchSchema table])).
Proof.
  intros [Ht Hne] Hs Hq. unfold generate_sql_step. py_simpl.
  py_rw Ht. rewrite (truthy_PyStr table) by done. py_simpl.
  py_rw Hs. by py_rw Hq.
Qed.

Lemma generate_run st tr :
  st !! "query" ≠ Some PyNone →
  ∃ st' tr', generate_sql_step (World st tr) = (Ok st', World st' (tr ++ tr'))
             ∧ ∀ k, k ∉ ["sql"; "filters"; "last_action"; "last_group"] →
                    st' !! k = st !! k.
Proof.
  intros Hq. apply stage_run_at.
  - apply generate_frames.
  - apply generate_returns_state.
  - by apply generate_ok_unless_query_none.
Qed.

(** Unless [query] holds [None], [generate_sql_step] returns normally
    whatever the catalog and the synthesizer do, and writes no field but
    [sql], [filters], [last_action] and [last_group]. *)
Theorem generate_sql_step_total st tr :
  st !! "query" ≠ Some PyNone →
  ∃ st' tr', generate_sql_step (World st tr) = (Ok st', World st' (tr ++ tr'))
             ∧ ∀ k, k ∉ ["sql"; "filters"; "last_action"; "last_group"] →
                    st' !! k = st !! k.
Proof. apply generate_run. Qed.

(** The default branch.  When neither follow-up test passes, the statement
    is the synthesizer's answer ("" for an empty or [None] answer); when
    filters are stored and the answer has no WHERE in any casing, its
    trailing semicolons are removed and "WHERE <filters>;" is added on a new
    line.  Only [sql] is written. *)
Theorem generate_sql_step_default st tr table sch q answer :
  table_selected st table →
  get_table_schema table = Ok sch →
  st !! "query" = Some (PyStr q) →
  let filters := match st !! "filters" with Some v => v | None => PyNone end in
  let memory := match st !! "memory" with Some v => v | None => PyStr "" end in
  let enriched_query :=
    "Conversation so far:" +:+ LF +:+ py_str memory +:+ LF +:+ LF
    +:+ "User Query: " +:+ q +:+ LF in
  contains "male" (lower q) && truthy filters = false →
  contains "break down" (lower q) && truthy filters = false →
  generate_sql_gemini enriched_query sch table = Ok answer →
  let sql :=
    if truthy filters && negb (contains "WHERE" (upper (or_empty answer)))
    then rstrip_chars ";" (strip (or_empty answer)) +:+ LF
         +:+ "WHERE " +:+ py_str filters +:+ ";"
    else or_empty answer in
  let st' := <["sql" := PyStr sql]> st in
  generate_sql_step (World st tr)
  = (Ok st', World st' (tr ++ [FetchSchema table; SynthesizeSql enriched_query table])).
Proof.
  intros [Ht Hne] Hs Hq filters memory enriched_query Hgender Hbreak Hsynth sql st'.
  subst st' sql enriched_query memory filters.
  unfold generate_sql_step.
  cbv beta iota zeta delta
    [mbind fmap mret Py_bind Py_fmap Py_ret attempt call dict_get dict_get_or
     getitem setitem return_state as_str raise state trace].
  rewrite Ht. rewrite (truthy_PyStr table) by done. cbn [negb py_str].
  rewrite Hs. cbv beta iota. rewrite Hq. cbv beta iota. cbn [py_str].
  rewrite Hgender, Hbreak. cbv beta iota. rewrite ?Hq. cbn [py_str].
  rewrite Hsynth. cbv beta iota.
  destruct (truthy _ && negb (contains "WHERE" (upper (or_empty answer))))
    eqn:Happend.
  - apply andb_true_iff in Happend as [Htruthy _].
    destruct (st !! "filters") as [flt|] eqn:Hflt; [|done].
    cbv beta iota. rewrite <- app_assoc.
    by destruct (bool_decide _ || _).
  - cbv beta iota. rewrite <- app_assoc. by destruct (bool_decide _ || _).
Qed.

(** An exception of the synthesizer is swallowed: the stage returns the
    state unchanged, without [sql]. *)
Theorem generate_sql_step_synthesizer_fails st tr table sch q e :
  table_selected st table →
  get_table_schema table = Ok sch →
  st !! "query" = Some (PyStr q) →
  let filters := match st !! "filters" with Some v => v | None => PyNone end in
  let memory := match st !! "memory" with Some v => v | None => PyStr "" end in
  let enriched_query :=
    "Conversation so far:" +:+ LF +:+ py_str memory +:+ LF +:+ LF
    +:+ "User Query: " +:+ q +:+ LF in
  contains "male" (lower q) && truthy filters = false →
  contains "break down" (lower q) && truthy filters = false →
  generate_sql_gemini enriched_query sch table = Raise e →
  generate_sql_step (World st tr)
  = (Ok st, World st (tr ++ [FetchSchema table; SynthesizeSql enriched_query table])).
Proof.
  intros [Ht Hne] Hs Hq filters memory enriched_query Hgender Hbreak Hsynth.
  subst enriched_query memory filters.
  unfold generate_sql_step.
  cbv beta iota zeta delta
    [mbind fmap mret Py_bind Py_fmap Py_ret attempt call dict_get dict_get_or
     getitem setitem return_state as_str raise state trace].
  rewrite Ht. rewrite (truthy_PyStr table) by done. cbn [negb py_str].
  rewrite Hs. cbv beta iota. rewrite Hq. cbv beta iota. cbn [py_str].
  rewrite Hgender, Hbreak. cbv beta iota. rewrite ?Hq. cbn [py_str].
  rewrite Hsynth. cbv beta iota. by rewrite <- app_assoc.
Qed.

Lemma keeps_bind K {A B} (m : Py world A) (f : A → Py world B) w r w' :
  m w = (r, w') → state w' = state w →
  (∀ a, r = Ok a → ∀ k, k ∉ K → state (f a w').2 !! k = state w' !! k) →
  ∀ k, k ∉ K → state ((m ≫= f) w).2 !! k = state w !! k.
Proof.
  intros Hm Hst Hf k Hk. unfold mbind, Py_bind. rewrite Hm.
  destruct r as [a|e]; simpl; [|by rewrite Hst].
  rewrite <- Hst. by apply Hf.
Qed.

Lemma keeps_tail K {A B} (m : Py world A) (f : A → Py world B) w :
  (∀ k, k ∉ K → state (m w).2 !! k = state w !! k) →
  (∀ a, frames K (f a)) →
  ∀ k, k ∉ K → state ((m ≫= f) w).2 !! k = state w !! k.
Proof.
  intros Hm Hf k Hk. unfold mbind, Py_bind. specialize (Hm k Hk).
  destruct (m w) as [[a|e] w1]; simpl in *; [|done].
  destruct (Hf a w1) as [Hk1 _]. by rewrite Hk1.
Qed.

Lemma keeps_attempt K {A} (m : Py world A) w :
  (∀ k, k ∉ K → state (m w).2 !! k = state w !! k) →
  ∀ k, k ∉ K → state (attempt m w).2 !! k = state w !! k.
Proof.
  intros Hm k Hk. specialize (Hm k Hk). unfold attempt.
  by destruct (m w) as [[a|e] w1].
Qed.

Lemma generate_keeps_without_filters st tr :
  truthy (match st !! "filters" with Some v => v | None => PyNone end) = false →
  ∀ k, k ≠ "sql" → state (generate_sql_step (World st tr)).2 !! k = st !! k.
Proof.
  intros Hflt k Hk.
  change (st !! k) with (state (World st tr) !! k).
  revert k Hk. 
  assert (∀ k, k ∉ ["sql"] → state (generate_sql_step (World st tr)).2 !! k
                              = state (World st tr) !! k) as Hkeep;
    [|intros k Hk; apply Hkeep; by intros ->%list_elem_of_singleton].
  unfold generate_sql_step.
  eapply keeps_bind; [reflexivity|reflexivity|]. intros ? [= <-]. cbv beta zeta.
  cbn [state]. destruct (negb _); [done|].
  destruct (get_table_schema _) as [sch|e].
  2: { eapply keeps_bind; [reflexivity|reflexivity|]. by intros ? [= <-]. }
  eapply keeps_bind; [reflexivity|reflexivity|]. intros ? [= <-]. cbv beta zeta.
  eapply keeps_bind; [reflexivity|reflexivity|]. intros ? [= <-]. cbv beta zeta.
  cbn [state].
  destruct (st !! "query") as [[|q]|].
  { eapply keeps_bind; [reflexivity|reflexivity|]. by intros ? [=]. }
  all: eapply keeps_bind; [reflexivity|reflexivity|]; intros ? [= <-]; cbv beta zeta.
  all: apply keeps_tail; [|intros ?; apply frames_return_state].
  all: apply keeps_attempt.
  all: eapply keeps_bind; [reflexivity|reflexivity|]; intros ? [= <-]; cbv beta zeta.
  all: cbn [state]; rewrite Hflt, !andb_false_r.
  all: apply (frames_bind ["sql"]);
         [|intros ?; destruct (_ || _); apply frames_setitem, list_elem_of_singleton; done].
  all: repeat first [progress cbv zeta | stage_step].
Qed.

(** Without stored filters neither follow-up branch can run: whatever the
    query says, [generate_sql_step] writes no field but [sql], so [filters],
    [last_action] and [last_group] are left as they were. *)
Theorem generate_sql_step_needs_filters st tr :
  truthy (match st !! "filters" with Some v => v | None => PyNone end) = false →
  ∀ k, k ≠ "sql" → state (generate_sql_step (World st tr)).2 !! k = st !! k.
Proof. apply generate_keeps_without_filters. Qed.


(** *** execute_sql_step *)

Lemma execute_run st tr :
  ∃ st' tr', execute_sql_step (World st tr) = (Ok st', World st' (tr ++ tr'))
             ∧ ∀ k, k ≠ "result" → k ≠ "filters" → st' !! k = st !! k.
Proof.
  destruct (stage_run_at ["result"; "filters"] execute_sql_step st tr)
    as (st' & tr' & Hrun & Hk);
    [apply execute_frames|apply execute_returns_state|apply execute_never_raises|].
  exists st', tr'. split; [done|]. intros k Hne1 Hne2. apply Hk.
  rewrite !not_elem_of_cons. repeat split; [done..|apply not_elem_of_nil].
Qed.

(** [execute_sql_step] returns normally whatever the executor does, and
    writes no field but [result] and [filters]. *)
Theorem execute_sql_step_total st tr :
  ∃ st' tr', execute_sql_step (World st tr) = (Ok st', World st' (tr ++ tr'))
             ∧ ∀ k, k ≠ "result" → k ≠ "filters" → st' !! k = st !! k.
Proof. apply execute_run. Qed.

(** A statement without WHERE in any casing: the rows are stored and the
    filters of earlier turns are kept. *)
Theorem execute_sql_step_without_where st tr sql rs :
  st !! "sql" = Some (PyStr sql) → sql ≠ "" →
  run_query sql = Ok rs →
  contains "WHERE" (upper sql) = false →
  let st' := <["result" := PyStr (str_rows rs)]> st in
  execute_sql_step (World st tr) = (Ok st', World st' (tr ++ [RunQuery sql])).
Proof.
  intros Hsql Hne Hrun Hup. unfold execute_sql_step, execute_try. py_simpl.
  py_rw Hsql. rewrite (truthy_PyStr sql) by done. py_simpl. py_rw Hrun.
  by rewrite Hup.
Qed.

(** A statement with the literal WHERE whose query succeeds: the captured
    filters are a piece of the text after the leftmost WHERE, hold neither
    "GROUP BY" nor "ORDER BY", and have no white space at either end. *)
Theorem execute_sql_step_filters_clean st tr sql rs :
  st !! "sql" = Some (PyStr sql) →
  run_query sql = Ok rs →
  contains "WHERE" sql = true →
  ∃ a b flt,
    sql = a +:+ "WHERE" +:+ b ∧ contains "WHERE" a = false
    ∧ (∃ l r, b = l +:+ flt +:+ r)
    ∧ contains "GROUP BY" flt = false ∧ contains "ORDER BY" flt = false
    ∧ strip flt = flt
    ∧ let st' := <["filters" := PyStr flt]> (<["result" := PyStr (str_rows rs)]> st) in
      execute_sql_step (World st tr) = (Ok st', World st' (tr ++ [RunQuery sql])).
Proof.
  intros Hsql Hrun Hlit. unfold contains in Hlit.
  destruct (find_first "WHERE" sql) as [[a b]|] eqn:Hfind; [|done].
  set (g := match find_first "GROUP BY" b with Some (x, _) => x | None => b end).
  set (o := match find_first "ORDER BY" g with Some (x, _) => x | None => g end).
  exists a, b, (strip o). split; [by apply find_first_Some|].
  split; [by apply (find_first_leftmost "WHERE" sql a b)|].
  assert (∃ r, g = o +:+ r) as [r2 Ho] by apply before_prefix.
  assert (∃ r, b = g +:+ r) as [r1 Hg] by apply before_prefix.
  split.
  { destruct (strip_piece o) as (l & r & Hpiece).
    exists l, (r +:+ r2 +:+ r1). rewrite Hg, Ho. rewrite Hpiece at 1.
    by rewrite !app_assoc_str. }
  split.
  { apply contains_strip, (contains_false_app_l _ _ r2). rewrite <- Ho.
    by apply before_free. }
  split; [by apply contains_strip, before_free|].
  split; [apply strip_idem|].
  by apply (execute_sql_step_captures_filters st tr sql rs a b).
Qed.

(** *** summarize_step *)

Lemma summarize_run st tr :
  ∃ st' tr' answer,
    summarize_step (World st tr) = (Ok st', World st' (tr ++ tr'))
    ∧ st' !! "answer" = Some (PyStr answer)
    ∧ ∀ k, k ≠ "answer" → k ≠ "memory" → st' !! k = st !! k.
Proof.
  unfold summarize_step, summarize_try. py_simpl.
  destruct (chat_completion _ _) as [[|content]|e]; py_simpl.
  - eexists _, [_], _. split; [done|]. split; [by rewrite lookup_insert_eq|].
    intros k Hk _. by rewrite lookup_insert_ne.
  - eexists _, [_], _. split; [done|].
    split; [by rewrite lookup_insert_ne, lookup_insert_eq|].
    intros k Hk1 Hk2. by rewrite !lookup_insert_ne.
  - eexists _, [_], _. split; [done|]. split; [by rewrite lookup_insert_eq|].
    intros k Hk _. by rewrite lookup_insert_ne.
Qed.

(** [summarize_step] returns normally whatever the model does, always
    leaves a text under [answer], and writes no field but [answer] and
    [memory]. *)
Theorem summarize_step_total st tr :
  ∃ st' tr' answer,
    summarize_step (World st tr) = (Ok st', World st' (tr ++ tr'))
    ∧ st' !! "answer" = Some (PyStr answer)
    ∧ ∀ k, k ≠ "answer" → k ≠ "memory" → st' !! k = st !! k.
Proof. apply summarize_run. Qed.

(** When the model answers, the answer is stored stripped and the turn is
    appended to the memory: the new memory starts with the old one (with
    "None" when the field holds [None], with nothing when it is absent). *)
Theorem summarize_step_appends_turn st tr content :
  (∀ prompt,
     chat_completion "You are a helpful data analyst who speaks in plain English." prompt
     = Ok (PyStr content)) →
  let previous := match st !! "memory" with Some v => v | None => PyStr "" end in
  let query := match st !! "query" with Some v => v | None => PyNone end in
  let memory :=
    py_str previous +:+ LF +:+ "User: " +:+ py_str query +:+ LF
    +:+ "AI: " +:+ strip content +:+ LF in
  let st' := <["memory" := PyStr memory]> (<["answer" := PyStr (strip content)]> st) in
  ∃ prompt,
    summarize_step (World st tr)
    = (Ok st', World st' (tr ++ [ChatCompletion
         "You are a helpful data analyst who speaks in plain English." prompt])).
Proof.
  intros Hchat. unfold summarize_step, summarize_try.
  cbv beta iota zeta delta
    [mbind fmap mret Py_bind Py_fmap Py_ret attempt call dict_get dict_get_or
     getitem setitem return_state as_str raise state trace].
  rewrite Hchat. cbv beta iota. rewrite !lookup_insert_ne by done.
  by eexists.
Qed.

(** When the model call raises, or its answer is [None], the error text is
    stored under [answer] after "Summarization error: " and the memory is
    not touched. *)
Theorem summarize_step_failure st tr outcome :
  (∀ prompt,
     chat_completion "You are a helpful data analyst who speaks in plain English." prompt
     = outcome) →
  (∀ content, outcome ≠ Ok (PyStr content)) →
  let msg := match outcome with
             | Raise e => exn_msg e
             | Ok _ => "'NoneType' object has no attribute 'strip'"
             end in
  let st' := <["answer" := PyStr ("Summarization error: " +:+ msg)]> st in
  ∃ prompt,
    summarize_step (World st tr)
    = (Ok st', World st' (tr ++ [ChatCompletion
         "You are a helpful data analyst who speaks in plain English." prompt])).
Proof.
  intros Hchat Hbad. unfold summarize_step, summarize_try. py_simpl.
  rewrite Hchat. destruct outcome as [[|content]|e]; py_simpl.
  - by eexists.
  - by destruct (Hbad content).
  - by eexists.
Qed.

(** *** The graph *)

Lemma seq_run {A B} (m : Py world A) (k : Py world B) w a w' :
  m w = (Ok a, w') → (m;; k) w = k w'.
Proof. intros Hm. unfold mbind, Py_bind. by rewrite Hm. Qed.

Lemma bind_cases {A B} (m : Py world A) (f : A → Py world B) w :
  (m ≫= f) w = match m w with
               | (Ok a, w') => f a w'
               | (Raise e, w') => (Raise e, w')
               end.
Proof. reflexivity. Qed.

Lemma graph_agent_run st tr :
  st !! "query" ≠ Some PyNone →
  ∃ st' tr' answer,
    graph_agent (World st tr) = (Ok st', World st' (tr ++ tr'))
    ∧ st' !! "answer" = Some (PyStr answer)
    ∧ st' !! "query" = st !! "query".
Proof.
  intros Hq. unfold graph_agent.
  destruct (identify_run st tr) as (st1 & tr1 & Hrun1 & Hk1).
  destruct (generate_run st1 (tr ++ tr1)) as (st2 & tr2 & Hrun2 & Hk2).
  { by rewrite Hk1. }
  destruct (execute_run st2 ((tr ++ tr1) ++ tr2)) as (st3 & tr3 & Hrun3 & Hk3).
  destruct (summarize_run st3 (((tr ++ tr1) ++ tr2) ++ tr3))
    as (st4 & tr4 & answer & Hrun4 & Hanswer & Hk4).
  rewrite (seq_run _ _ _ _ _ Hrun1), (seq_run _ _ _ _ _ Hrun2),
    (seq_run _ _ _ _ _ Hrun3), Hrun4.
  exists st4, (tr1 ++ tr2 ++ tr3 ++ tr4), answer.
  split; [by rewrite !app_assoc|]. split; [done|].
  rewrite (Hk4 "query"), (Hk3 "query"), (Hk2 "query"), (Hk1 "query"); try done.
  rewrite !not_elem_of_cons. repeat split; [done..|apply not_elem_of_nil].
Qed.

(** Unless [query] holds [None], a run of the graph ends normally with a
    text under [answer], and the query is the one it was given. *)
Theorem graph_agent_answers st tr :
  st !! "query" ≠ Some PyNone →
  ∃ st' tr' answer,
    graph_agent (World st tr) = (Ok st', World st' (tr ++ tr'))
    ∧ st' !! "answer" = Some (PyStr answer)
    ∧ st' !! "query" = st !! "query".
Proof. apply graph_agent_run. Qed.

(** A run of the graph that starts without filters takes neither follow-up
    branch, however the run ends: [last_action] and [last_group] are as at
    the start.  The state the API builds holds [query] and [memory] only. *)
Theorem graph_agent_without_filters st tr :
  truthy (match st !! "filters" with Some v => v | None => PyNone end) = false →
  let st' := state (graph_agent (World st tr)).2 in
  st' !! "last_action" = st !! "last_action"
  ∧ st' !! "last_group" = st !! "last_group".
Proof.
  intros Hflt.
  assert (∀ k, k ≠ "sql" → k ≠ "table_name" → k ≠ "result" → k ≠ "filters" →
               k ≠ "answer" → k ≠ "memory" →
               state (graph_agent (World st tr)).2 !! k = st !! k) as Hkeep;
    [|split; by apply Hkeep].
  intros k Hsql Htable Hresult Hfilters Hanswer Hmemory. unfold graph_agent.
  destruct (identify_run st tr) as (st1 & tr1 & Hrun1 & Hk1).
  rewrite (seq_run _ _ _ _ _ Hrun1).
  pose proof (generate_keeps_without_filters st1 (tr ++ tr1)) as Hgen.
  rewrite (Hk1 "filters") in Hgen by done. specialize (Hgen Hflt k Hsql).
  rewrite (bind_cases generate_sql_step).
  destruct (generate_sql_step _) as [[a2|e2] [st2 tr2]]; simpl in Hgen;
    cbv beta iota; [|cbn [snd state]; by rewrite Hgen, Hk1].
  destruct (execute_run st2 tr2) as (st3 & tr3 & Hrun3 & Hk3).
  rewrite (seq_run _ _ _ _ _ Hrun3).
  destruct (summarize_run st3 (tr2 ++ tr3)) as (st4 & tr4 & answer & Hrun4 & _ & Hk4).
  rewrite Hrun4. simpl. by rewrite Hk4, Hk3, Hgen, Hk1.
Qed.

End StageTheorems.

(** ** The SQL synthesizer *)

Module SqlGeneratorFacts.
Import SqlGenerator.

Lemma words_go_words s :
  all_chars nonspace (words_go s).1 = true ∧ Forall word (words_go s).2.
Proof.
  induction s as [|c s [IHw IHws]]; [by split|]. simpl.
  destruct (words_go s) as [w ws]. simpl in *.
  destruct (isspace c) eqn:Hc; simpl.
  - split; [done|]. destruct w as [|d w]; [done|]. by constructor.
  - split; [|done]. unfold nonspace at 1. by rewrite Hc.
Qed.

Lemma split_whitespace_words s : Forall word (split_whitespace s).
Proof.
  unfold split_whitespace. pose proof (words_go_words s) as [Hw Hws].
  destruct (words_go s) as [w ws]. simpl in *.
  destruct w as [|d w]; [done|]. by constructor.
Qed.

Lemma words_go_word_alone w : all_chars nonspace w = true → words_go w = (w, []).
Proof.
  induction w as [|c w IH]; [done|]. simpl. intros [Hc Hw]%andb_true_iff.
  rewrite (IH Hw). unfold nonspace in Hc. by destruct (isspace c).
Qed.

Lemma words_go_word_then w r :
  all_chars nonspace w = true →
  words_go (w +:+ String " " r) = (w, split_whitespace r).
Proof.
  induction w as [|c w IH]; intros Hw.
  - rewrite app_empty_l. unfold split_whitespace. simpl.
    by destruct (words_go r) as [x xs].
  - simpl in Hw. apply andb_true_iff in Hw as [Hc Hw]. rewrite app_cons. simpl.
    rewrite (IH Hw). unfold nonspace in Hc. by destruct (isspace c).
Qed.

(** Splitting the joined words gives the words back. *)
Lemma split_whitespace_join ws :
  Forall word ws → split_whitespace (join " " ws) = ws.
Proof.
  induction 1 as [|w ws [Hne Hw] Hws IH]; [done|].
  destruct ws as [|w2 ws].
  - simpl. unfold split_whitespace. rewrite (words_go_word_alone w Hw).
    by destruct w.
  - change (join " " (w :: w2 :: ws)) with (w +:+ String " " (join " " (w2 :: ws))).
    unfold split_whitespace at 1. rewrite (words_go_word_then w _ Hw), IH.
    by destruct w.
Qed.

Lemma mem_char_app c a b : mem_char c (a +:+ b) = mem_char c a || mem_char c b.
Proof.
  induction a as [|d a IH]; [done|]. rewrite app_cons. simpl.
  by destruct (decide (c = d)).
Qed.

Lemma word_no_space c w :
  all_chars nonspace w = true → mem_char c w = true → isspace c = false.
Proof.
  induction w as [|d w IH]; [done|]. simpl. intros [Hd Hw]%andb_true_iff.
  destruct (decide (c = d)) as [->|]; [|by apply IH].
  intros _. unfold nonspace in Hd. by destruct (isspace d).
Qed.

Lemma join_space_only c ws :
  Forall word ws → mem_char c (join " " ws) = true → isspace c = true → c = " "%char.
Proof.
  induction 1 as [|w ws [Hne Hw] Hws IH]; [done|]. intros Hmem Hc.
  destruct ws as [|w2 ws].
  - simpl in Hmem. by rewrite (word_no_space c w Hw Hmem) in Hc.
  - change (join " " (w :: w2 :: ws)) with (w +:+ String " " (join " " (w2 :: ws)))
      in Hmem.
    rewrite mem_char_app in Hmem. apply orb_true_iff in Hmem as [Hmem|Hmem].
    + by rewrite (word_no_space c w Hw Hmem) in Hc.
    + simpl in Hmem. destruct (decide (c = " "%char)); [done|]. by apply IH.
Qed.

(** The cleaned text is on one line with single spaces: every white-space
    character in it is a space, and splitting it into words and joining
    them with spaces gives it back. *)
Theorem clean_model_sql_single_spaced text :
  let sql := _clean_model_sql text in
  (∀ c, mem_char c sql = true → isspace c = true → c = " "%char)
  ∧ join " " (split_whitespace sql) = sql.
Proof.
  unfold _clean_model_sql. destruct (bool_decide (text = "")) eqn:Hempty.
  - apply bool_decide_eq_true in Hempty as ->. by split.
  - cbv zeta. set (ws := split_whitespace _).
    assert (Forall word ws) as Hws by apply split_whitespace_words.
    split; [intros c; by apply join_space_only|].
    by rewrite split_whitespace_join.
Qed.

Section GenerateFacts.
Context `{model : ChatModel}.
Implicit Types (log : list gen_event).

Lemma attempt_once_fails n prompt table_name log :
  attempt_fails n prompt table_name →
  ∃ e, attempt_once n prompt table_name log = (Raise e, log ++ [Asked n prompt]).
Proof.
  unfold attempt_fails, attempt_once. intros Hfail.
  cbv beta iota zeta delta [mbind fmap mret Py_bind Py_fmap Py_ret as_str raise].
  destruct (reply n prompt) as [[|content]|e]; [by eexists| |by eexists].
  rewrite Hfail. by eexists.
Qed.

Lemma attempt_once_succeeds n prompt table_name log content :
  reply n prompt = Ok (PyStr content) →
  _validate_sql (_clean_model_sql (strip content)) table_name = true →
  attempt_once n prompt table_name log
  = (Ok (_clean_model_sql (strip content)), log ++ [Asked n prompt]).
Proof.
  intros Hreply Hvalid. unfold attempt_once.
  cbv beta iota zeta delta [mbind fmap mret Py_bind Py_fmap Py_ret as_str raise].
  by rewrite Hreply, Hvalid.
Qed.

Lemma attempt_once_validated n prompt table_name log sql log' :
  attempt_once n prompt table_name log = (Ok sql, log') →
  _validate_sql sql table_name = true.
Proof.
  unfold attempt_once.
  cbv beta iota zeta delta [mbind fmap mret Py_bind Py_fmap Py_ret as_str raise].
  destruct (reply n prompt) as [[|content]|e]; [done| |done].
  destruct (_validate_sql _ _) eqn:Hv; simpl; [|done]. by intros [= <- _].
Qed.

Lemma attempts_validated remaining n prompt table_name log sql log' :
  attempts remaining n prompt table_name log = (Ok (Some sql), log') →
  _validate_sql sql table_name = true.
Proof.
  revert n log. induction remaining as [|remaining IH]; intros n log; [done|].
  cbn [attempts]. cbv beta iota zeta delta [mbind mret Py_bind Py_ret attempt].
  destruct (attempt_once n prompt table_name log) as [[s|e] log1] eqn:Honce.
  - intros [= <- _]. by eapply attempt_once_validated.
  - apply IH.
Qed.

Lemma attempts_all_fail remaining n prompt table_name log :
  (∀ i, attempt_fails i prompt table_name) →
  attempts remaining n prompt table_name log
  = (Ok None, log ++ failed_rounds n remaining prompt).
Proof.
  intros Hfail. revert n log. induction remaining as [|remaining IH]; intros n log.
  - simpl. by rewrite app_nil_r.
  - cbn [attempts]. cbv beta iota zeta delta [mbind mret Py_bind Py_ret attempt].
    destruct (attempt_once_fails n prompt table_name log (Hfail n)) as [e ->].
    rewrite IH. unfold failed_rounds. simpl. by rewrite <- !app_assoc.
Qed.

Lemma attempts_first_success remaining k n prompt table_name log content :
  (k < remaining)%nat →
  (∀ i, (n ≤ i < n + k)%nat → attempt_fails i prompt table_name) →
  reply (n + k) prompt = Ok (PyStr content) →
  _validate_sql (_clean_model_sql (strip content)) table_name = true →
  attempts remaining n prompt table_name log
  = (Ok (Some (_clean_model_sql (strip content))),
     log ++ failed_rounds n k prompt ++ [Asked (n + k)%nat prompt]).
Proof.
  revert k n log. induction remaining as [|remaining IH];
    intros k n log Hk Hfail Hreply Hvalid; [lia|].
  cbn [attempts]. cbv beta iota zeta delta [mbind mret Py_bind Py_ret attempt].
  destruct k as [|k].
  - rewrite Nat.add_0_r in *.
    by rewrite (attempt_once_succeeds n prompt table_name log content).
  - destruct (attempt_once_fails n prompt table_name log) as [e ->];
      [apply Hfail; lia|].
    replace (n + S k)%nat with (S n + k)%nat in * by lia.
    rewrite (IH k (S n) _); [|lia|intros i Hi; apply Hfail; lia|done..].
    unfold failed_rounds. cbn [seq flat_map]. by rewrite <- !app_assoc.
Qed.

(** A statement the synthesizer returns has passed the validation: it is
    not empty, its stripped lower-case text starts with "select" and
    mentions the lower-cased table name. *)
Theorem generate_sql_gemini_validated user_query schema table_name max_retries
    log sql log' :
  generate_sql_gemini user_query schema table_name max_retries log = (Ok sql, log') →
  sql ≠ ""
  ∧ startswith "select" (lower (strip sql)) = true
  ∧ contains (lower table_name) (lower (strip sql)) = true.
Proof.
  unfold generate_sql_gemini.
  cbv beta iota zeta delta [mbind mret Py_bind Py_ret raise].
  destruct (attempts _ _ _ _ _) as [[[s|]|e] log1] eqn:Hrun; [|done..].
  intros [= <- _]. apply attempts_validated in Hrun. unfold _validate_sql in Hrun.
  destruct (bool_decide (s = "")) eqn:Hs; [done|]. apply bool_decide_eq_false in Hs.
  cbv zeta in Hrun.
  destruct (startswith _ _); [|done]. by destruct (contains _ _).
Qed.

(** When every attempt fails, the synthesizer asks the model
    [max_retries + 1] times, sleeps 1, 3, 5, ... seconds after each failure,
    the last one included, and raises the runtime error that counts the
    attempts. *)
Theorem generate_sql_gemini_gives_up user_query schema table_name max_retries log :
  let prompt := sql_prompt user_query schema table_name in
  (∀ i, attempt_fails i prompt table_name) →
  generate_sql_gemini user_query schema table_name max_retries log
  = (Raise (Exn RuntimeError
              ("Failed to generate SQL after " +:+ pretty (max_retries + 1)
               +:+ " attempts")),
     log ++ failed_rounds 0 (Z.to_nat (max_retries + 1)) prompt).
Proof.
  intros prompt Hfail. unfold generate_sql_gemini.
  cbv beta iota zeta delta [mbind mret Py_bind Py_ret raise].
  fold prompt. by rewrite attempts_all_fail.
Qed.

(** When attempt [k] is the first to give a valid statement and [k] is at
    most [max_retries], the synthesizer returns that statement cleaned,
    after [k] failed rounds and one more call. *)
Theorem generate_sql_gemini_retries user_query schema table_name max_retries
    log k content :
  let prompt := sql_prompt user_query schema table_name in
  Z.of_nat k ≤ max_retries →
  (∀ i, (i < k)%nat → attempt_fails i prompt table_name) →
  reply k prompt = Ok (PyStr content) →
  _validate_sql (_clean_model_sql (strip content)) table_name = true →
  generate_sql_gemini user_query schema table_name max_retries log
  = (Ok (_clean_model_sql (strip content)),
     log ++ failed_rounds 0 k prompt ++ [Asked k prompt]).
Proof.
  intros prompt Hk Hfail Hreply Hvalid. unfold generate_sql_gemini.
  cbv beta iota zeta delta [mbind mret Py_bind Py_ret raise]. fold prompt.
  rewrite (attempts_first_success _ k 0 prompt table_name log content);
    [done|lia|intros i Hi; apply Hfail; lia|done..].
Qed.

End GenerateFacts.

(** The seconds slept in [n] failed rounds from round 0 add up to [n * n]. *)
Lemma failed_rounds_slept start n prompt :
  foldr (λ ev acc, slept ev + acc) 0 (failed_rounds start n prompt)
  = Z.of_nat n * (Z.of_nat n + 2 * Z.of_nat start).
Proof.
  revert start. induction n as [|n IH]; intros start; [done|].
  unfold failed_rounds in *. simpl. rewrite IH. lia.
Qed.

End SqlGeneratorFacts.

(** ** More on the upload helper *)

Section CharFacts.

Lemma lower_char_idem c : lower_char (lower_char c) = lower_char c.
Proof. by destruct c as [[] [] [] [] [] [] [] []]. Qed.

Lemma lower_idem s : lower (lower s) = lower s.
Proof.
  unfold lower. induction s as [|c s IH]; [done|]. simpl.
  by rewrite lower_char_idem, IH.
Qed.

Lemma name_char_not_space c :
  isalnum c || bool_decide (c = "_"%char) = true → isspace c = false.
Proof. by destruct c as [[] [] [] [] [] [] [] []]. Qed.

Lemma all_chars_impl (p q : ascii → bool) s :
  (∀ c, p c = true → q c = true) → all_chars p s = true → all_chars q s = true.
Proof.
  intros Hpq. induction s as [|c s IH]; [done|]. simpl.
  intros [Hc Hs]%andb_true_iff. by rewrite (Hpq c Hc), IH.
Qed.

Lemma rstrip_by_none p s :
  all_chars (λ c, negb (p c)) s = true → rstrip_by p s = s.
Proof.
  induction s as [|c s IH]; [done|]. simpl. intros [Hc Hs]%andb_true_iff.
  rewrite (IH Hs). destruct (p c); [done|]. by destruct s.
Qed.

Lemma lstrip_by_none p s :
  all_chars (λ c, negb (p c)) s = true → lstrip_by p s = s.
Proof. destruct s as [|c s]; [done|]. simpl. by destruct (p c). Qed.

(** A text without white space is its own strip. *)
Lemma strip_none s : all_chars (λ c, negb (isspace c)) s = true → strip s = s.
Proof. intros Hs. unfold strip. by rewrite lstrip_by_none, rstrip_by_none. Qed.

End CharFacts.

Section DedupFacts.
Implicit Types (rs : list (list pyval)) (r : list pyval).

Lemma drop_duplicates_elem r rs : r ∈ drop_duplicates rs ↔ r ∈ rs.
Proof.
  induction rs as [|x rs IH]; [done|]. simpl.
  rewrite !elem_of_cons, list_elem_of_filter, IH. split.
  - intros [?|[? ?]]; auto.
  - intros [?|?]; [auto|]. destruct (decide (r = x)); auto.
Qed.

Lemma drop_duplicates_NoDup rs : NoDup (drop_duplicates rs).
Proof.
  induction rs as [|x rs IH]; simpl; [constructor|].
  constructor; [|by apply NoDup_filter].
  rewrite list_elem_of_filter. by intros [? _].
Qed.

Lemma drop_duplicates_length rs : (length (drop_duplicates rs) ≤ length rs)%nat.
Proof.
  induction rs as [|x rs IH]; simpl; [done|].
  pose proof (length_filter (λ y, y ≠ x) (drop_duplicates rs)). lia.
Qed.

Lemma filter_id_NoDup_notin (x : list pyval) rs :
  x ∉ rs → filter (λ y, y ≠ x) rs = rs.
Proof.
  induction rs as [|y rs IH]; [done|]. intros [Hne Hnotin]%not_elem_of_cons.
  rewrite filter_cons_True by done. by rewrite IH.
Qed.

Lemma drop_duplicates_NoDup_id rs : NoDup rs → drop_duplicates rs = rs.
Proof.
  induction 1 as [|x rs Hnotin Hnd IH]; [done|]. simpl.
  by rewrite IH, filter_id_NoDup_notin.
Qed.

End DedupFacts.

Section UploadMore.
Context `{env : UploadEnv}.
Implicit Types (ops : list db_op) (df : DataFrame).

Ltac up_simpl :=
  cbv beta iota zeta delta
    [mbind fmap mret Py_bind Py_fmap Py_ret attempt raise db_call pure_call negb].

(** A table name that passes the check is the lower-cased, stripped input;
    it is not empty, is made of letters, digits and underscores, and passes
    the check again unchanged. *)
Theorem ensure_table_name_safe_normal name n :
  _ensure_table_name_safe name = Ok n →
  n = lower (strip name) ∧ n ≠ ""
  ∧ all_chars (λ c, isalnum c || bool_decide (c = "_"%char)) n = true
  ∧ _ensure_table_name_safe n = Ok n.
Proof.
  unfold _ensure_table_name_safe. cbv zeta.
  destruct (bool_decide (lower (strip name) = "")) eqn:Hempty; [done|].
  destruct (all_chars _ (lower (strip name))) eqn:Hchars; [|done].
  simpl. intros [= <-]. apply bool_decide_eq_false in Hempty.
  repeat split; [done..|].
  assert (strip (lower (strip name)) = lower (strip name)) as ->.
  { apply strip_none. revert Hchars. apply all_chars_impl.
    intros c Hc. by rewrite (name_char_not_space c Hc). }
  rewrite lower_idem, bool_decide_eq_false_2 by done. by rewrite Hchars.
Qed.

(** Normalizing keeps every distinct row once: the rows of the result are
    pairwise different, are exactly the rows of the input, and are no more
    than before; a frame without repeated rows keeps its rows as they are. *)
Theorem normalize_dataframe_rows df :
  let rs := records (_normalize_dataframe df) in
  NoDup rs
  ∧ (∀ r, r ∈ rs ↔ r ∈ records df)
  ∧ len (_normalize_dataframe df) ≤ len df
  ∧ (NoDup (records df) → rs = records df).
Proof.
  simpl. split; [apply drop_duplicates_NoDup|].
  split; [intros r; apply drop_duplicates_elem|].
  split; [|apply drop_duplicates_NoDup_id].
  unfold len. simpl. pose proof (drop_duplicates_length (records df)). lia.
Qed.

Lemma iloc_chunk df start stop :
  0 ≤ start → start ≤ stop → stop ≤ len df →
  records (iloc df start stop)
  = take (Z.to_nat (stop - start)) (drop (Z.to_nat start) (records df)).
Proof.
  intros H0 H1 H2. unfold iloc, slice_bound. simpl.
  destruct (Z.ltb_spec start 0); [lia|]. destruct (Z.ltb_spec stop 0); [lia|].
  by rewrite !Z.min_l by lia.
Qed.

(** The chunk loop, when every write succeeds. *)
Lemma write_chunks_run fuel df table_name schema start first ops :
  0 < CHUNK_SIZE →
  (∀ mode chunk, to_sql table_name mode schema chunk = Ok ()) →
  0 ≤ start ≤ len df →
  (Z.to_nat (len df - start) ≤ fuel)%nat →
  ∃ writes,
    write_chunks fuel df table_name schema (len df) start first ops
    = (Ok (Some ()), ops ++ writes)
    ∧ written writes = drop (Z.to_nat start) (records df)
    ∧ ∀ i op, writes !! i = Some op →
        chunk_write table_name schema CHUNK_SIZE
          (if first && bool_decide (i = 0%nat) then Replace else Append) op.
Proof.
  intros Hpos Hok. revert start first ops.
  induction fuel as [|fuel IH]; intros start first ops Hstart Hfuel; simpl.
  - destruct (Z.ltb_spec start (len df)); [lia|]. exists [].
    rewrite app_nil_r. split; [done|]. split; [|done].
    unfold written, len in *. simpl. rewrite drop_ge; [done|lia].
  - destruct (Z.ltb_spec start (len df)) as [Hlt|Hge].
    2: { exists []. rewrite app_nil_r. split; [done|]. split; [|done].
         unfold written, len in *. simpl. rewrite drop_ge; [done|lia]. }
    up_simpl. rewrite Hok.
    set (stop := Z.min (start + CHUNK_SIZE) (len df)).
    assert (start < stop ≤ len df) as Hstop by (unfold stop; lia).
    destruct (IH stop false (ops ++ [ToSql table_name (if first then Replace else Append)
                                       schema (iloc df start stop)]))
      as (writes & Hrun & Hrows & Hmodes); [lia|lia|].
    rewrite Hrun. eexists (_ :: writes). split; [by rewrite <- app_assoc|].
    pose proof (iloc_chunk df start stop) as Hchunk.
    split.
    + change (written (?op :: writes)) with (op_rows op ++ written writes).
      cbn [op_rows]. rewrite Hrows, Hchunk by lia.
      replace (Z.to_nat stop) with (Z.to_nat start + Z.to_nat (stop - start))%nat
        by lia.
      by rewrite <- drop_drop, take_drop.
    + intros [|i] op Hop; simpl in Hop.
      * injection Hop as <-. rewrite andb_true_r. eexists. split; [done|].
        unfold len at 1 2. rewrite Hchunk by lia.
        rewrite length_take, length_drop. unfold len in *. unfold stop in *. lia.
      * rewrite andb_false_r. by apply (Hmodes i).
Qed.

(** Under the row limit, with a positive chunk size and a database that
    accepts the calls, every row of the normalized frame is written once
    and in order: the engine is taken, the old table is dropped, the first
    write replaces and the later ones append, no chunk is empty or longer
    than [CHUNK_SIZE], and the message counts the rows written. *)
Theorem upload_new_table_writes_all_rows fuel file_path table_name name safe df ops :
  path_exists file_path = true →
  _validate_filename (path_name file_path) = Ok name →
  _ensure_table_name_safe table_name = Ok safe →
  _read_table_from_file file_path = Ok df →
  len df ≤ MAX_ROWS →
  empty (_normalize_dataframe df) = false →
  0 < CHUNK_SIZE →
  get_engine = Ok () → engine_begin = Ok () →
  (∀ mode schema chunk, to_sql safe mode schema chunk = Ok ()) →
  (length (records df) ≤ fuel)%nat →
  let clean := _normalize_dataframe df in
  let schema := if truthy DEFAULT_SCHEMA then Some (py_str DEFAULT_SCHEMA) else None in
  let drop_sql :=
    "IF OBJECT_ID(N'" +:+ safe +:+ "', N'U') IS NOT NULL DROP TABLE " +:+ safe +:+ ";" in
  ∃ writes,
    upload_new_table fuel file_path table_name ops
    = (Ok (Some ("Uploaded " +:+ pretty (len clean) +:+ " rows to table '"
                 +:+ safe +:+ "' successfully")),
       ops ++ [GetEngine; Begin; Execute drop_sql] ++ writes)
    ∧ written writes = records clean
    ∧ ∀ i op, writes !! i = Some op →
        chunk_write safe schema CHUNK_SIZE
          (if bool_decide (i = 0%nat) then Replace else Append) op.
Proof.
  intros Hex Hname Hsafe Hread Hcap Hnonempty Hpos Hengine Hbegin Hwrite Hfuel
    clean schema drop_sql.
  assert (0 < len clean) as Hrows.
  { unfold empty in Hnonempty. apply orb_false_iff in Hnonempty as [_ Hrec].
    apply bool_decide_eq_false in Hrec. unfold len.
    fold clean in Hrec. destruct (records clean); [done|simpl; lia]. }
  destruct (write_chunks_run fuel clean safe schema 0 true
              (((ops ++ [GetEngine]) ++ [Begin]) ++ [Execute drop_sql]))
    as (writes & Hrun & Hwritten & Hmodes);
    [done|intros; apply Hwrite|lia| |].
  { pose proof (drop_duplicates_length (records df)).
    unfold len, clean. simpl. lia. }
  exists writes. split; [|split; [by rewrite Hwritten|done]].
  assert ((len clean =? 0) = false) as Hnonzero by (apply Z.eqb_neq; lia).
  subst clean schema drop_sql.
  unfold upload_new_table. rewrite Hex. up_simpl.
  rewrite Hname, Hsafe, Hread. up_simpl.
  destruct (Z.ltb_spec MAX_ROWS (len df)); [lia|].
  rewrite Hnonempty, Hengine. unfold _to_sql_with_chunks. up_simpl.
  rewrite Hbegin, Hnonzero.
  destruct (conn_execute _); rewrite Hrun; by rewrite <- !app_assoc.
Qed.

Lemma write_chunks_extends fuel df table_name schema total start first ops :
  ∃ rest, (write_chunks fuel df table_name schema total start first ops).2
          = ops ++ rest.
Proof.
  revert start first ops. induction fuel as [|fuel IH]; intros start first ops; simpl.
  - destruct (start <? total); exists []; by rewrite app_nil_r.
  - destruct (start <? total); [|exists []; by rewrite app_nil_r].
    up_simpl. destruct (to_sql _ _ _ _).
    + destruct (IH (Z.min (start + CHUNK_SIZE) total) false
                  (ops ++ [ToSql table_name (if first then Replace else Append) schema
                             (iloc df start (Z.min (start + CHUNK_SIZE) total))]))
        as [rest Hrest].
      rewrite Hrest. eexists. by rewrite <- app_assoc.
    + by eexists.
Qed.

Lemma to_sql_with_chunks_extends fuel df table_name schema ops :
  ∃ rest, (_to_sql_with_chunks fuel df table_name schema ops).2 = ops ++ rest.
Proof.
  unfold _to_sql_with_chunks. up_simpl.
  destruct engine_begin; [|by eexists].
  destruct (len df =? 0).
  - destruct (conn_execute _); eexists; simpl; by rewrite <- app_assoc.
  - destruct (conn_execute _);
      match goal with
      | |- context [write_chunks ?f ?d ?t ?s ?n ?a ?b ?o] =>
          destruct (write_chunks_extends f d t s n a b o) as [rest ->]
      end; eexists; by rewrite <- !app_assoc.
Qed.

(** Whatever the input, the helper either raises with the database
    untouched, or its first database operation is taking the engine: no
    table is dropped or written before the file, the table name, the row
    limit and the emptiness check have passed. *)
Theorem upload_new_table_engine_first fuel file_path table_name ops :
  let run := upload_new_table fuel file_path table_name ops in
  (run.2 = ops ∧ ∃ e, run.1 = Raise e)
  ∨ ∃ rest, run.2 = ops ++ GetEngine :: rest.
Proof.
  unfold upload_new_table.
  destruct (path_exists file_path); up_simpl; [|left; eauto].
  destruct (_validate_filename _); [|left; eauto].
  destruct (_ensure_table_name_safe _) as [safe|]; [|left; eauto].
  destruct (_read_table_from_file _) as [df|]; [|left; eauto].
  destruct (MAX_ROWS <? len df); [left; eauto|].
  destruct (empty _); [left; eauto|].
  right. destruct get_engine; [|by exists []].
  destruct (to_sql_with_chunks_extends fuel (_normalize_dataframe df) safe
              DEFAULT_SCHEMA (ops ++ [GetEngine])) as [rest Hrest].
  destruct (_to_sql_with_chunks _ _ _ _ _) as [[done|e] ops1]; simpl in *;
    subst ops1; exists rest; by rewrite <- app_assoc.
Qed.

(** The chunk helper drops the old table before it looks at the frame:
    given a frame without rows it executes the DROP and then raises the
    validation error. *)
Theorem to_sql_with_chunks_no_rows fuel df table_name schema ops :
  records df = [] →
  engine_begin = Ok () →
  let drop_sql :=
    "IF OBJECT_ID(N'" +:+ table_name +:+ "', N'U') IS NOT NULL DROP TABLE "
    +:+ table_name +:+ ";" in
  _to_sql_with_chunks fuel df table_name schema ops
  = (Raise (Exn ValueError "Uploaded file contains no rows"),
     ops ++ [Begin; Execute drop_sql]).
Proof.
  intros Hrows Hbegin. unfold _to_sql_with_chunks. up_simpl. rewrite Hbegin.
  unfold len. rewrite Hrows. simpl.
  destruct (conn_execute _); by rewrite <- app_assoc.
Qed.

(** When the first write fails, the old table has already been dropped and
    nothing is written; the error comes back as a runtime error that quotes
    the table and the original message. *)
Theorem upload_new_table_first_write_fails fuel file_path table_name name safe df
    ops e :
  path_exists file_path = true →
  _validate_filename (path_name file_path) = Ok name →
  _ensure_table_name_safe table_name = Ok safe →
  _read_table_from_file file_path = Ok df →
  len df ≤ MAX_ROWS →
  empty (_normalize_dataframe df) = false →
  get_engine = Ok () → engine_begin = Ok () →
  let clean := _normalize_dataframe df in
  let schema := if truthy DEFAULT_SCHEMA then Some (py_str DEFAULT_SCHEMA) else None in
  let first_chunk := iloc clean 0 (Z.min (0 + CHUNK_SIZE) (len clean)) in
  let drop_sql :=
    "IF OBJECT_ID(N'" +:+ safe +:+ "', N'U') IS NOT NULL DROP TABLE " +:+ safe +:+ ";" in
  to_sql safe Replace schema first_chunk = Raise e →
  upload_new_table (S fuel) file_path table_name ops
  = (Raise (Exn RuntimeError
              ("Failed to upload table '" +:+ safe +:+ "': " +:+ exn_msg e)),
     ops ++ [GetEngine; Begin; Execute drop_sql;
             ToSql safe Replace schema first_chunk]).
Proof.
  intros Hex Hname Hsafe Hread Hcap Hnonempty Hengine Hbegin
    clean schema first_chunk drop_sql Hfail.
  assert (0 < len clean) as Hrows.
  { unfold empty in Hnonempty. apply orb_false_iff in Hnonempty as [_ Hrec].
    apply bool_decide_eq_false in Hrec. unfold len. fold clean in Hrec.
    destruct (records clean); [done|simpl; lia]. }
  assert ((len clean =? 0) = false) as Hnonzero by (apply Z.eqb_neq; lia).
  assert ((0 <? len clean) = true) as Hpos by (by apply Z.ltb_lt).
  subst clean schema first_chunk drop_sql.
  unfold upload_new_table. rewrite Hex. up_simpl.
  rewrite Hname, Hsafe, Hread. up_simpl.
  destruct (Z.ltb_spec MAX_ROWS (len df)); [lia|].
  rewrite Hnonempty, Hengine. unfold _to_sql_with_chunks. up_simpl.
  rewrite Hbegin, Hnonzero. cbn [write_chunks]. rewrite Hpos. up_simpl.
  destruct (conn_execute _); rewrite Hfail; by rewrite <- !app_assoc.
Qed.

End UploadMore.

(** ** The endpoint *)

Module ApiFacts.
Import Api.

Section EndpointFacts.
Context `{backend : Collaborators}.

Lemma pick_answer_nonempty result : pick_answer result ≠ "".
Proof.
  unfold pick_answer. cbv zeta.
  destruct (match result !! "answer" with Some v => v | None => PyNone end)
    as [|[|c s]]; simpl; try done.
  all: by destruct (match result !! "response" with Some v => v | None => PyNone end)
    as [|[|c s]].
Qed.

(** A request with a query that is not blank is always answered with the
    200 body and a text that is not empty, whatever the collaborators do:
    no failure of the pipeline reaches the catch-all clause.  The turn is
    appended to the history of the session, and the other sessions are as
    before. *)
Theorem ask_graph_agent_answers user_query session_id h tr :
  strip user_query ≠ "" →
  let sid := if bool_decide (session_id = "") then "default" else session_id in
  let previous := match h !! sid with Some c => c | None => [] end in
  ∃ answer tr',
    answer ≠ ""
    ∧ ask_graph_agent user_query session_id h tr
      = (Answered answer (previous ++ [Turn user_query answer]),
         <[sid := previous ++ [Turn user_query answer]]> h,
         tr ++ tr').
Proof.
  intros Hquery sid previous. unfold ask_graph_agent. cbv zeta.
  assert (user_query ≠ "") as Hne by (by intros ->).
  rewrite (bool_decide_eq_false_2 (user_query = "")) by done.
  rewrite (bool_decide_eq_false_2 (strip user_query = "")) by done.
  cbn [orb]. fold sid. fold previous.
  destruct (graph_agent_run
              (<["memory" := PyStr (memory_text previous)]>
                 (<["query" := PyStr user_query]> ∅)) tr)
    as (st' & tr' & answer & Hrun & _ & _).
  { by rewrite lookup_insert_ne, lookup_insert_eq. }
  rewrite Hrun. exists (pick_answer st'), tr'.
  split; [apply pick_answer_nonempty|done].
Qed.

End EndpointFacts.

End ApiFacts.

(** ** Searching across a character the pattern does not hold *)

Section SeparatorFacts.
Implicit Types (s sep a b r x y : string) (c d : ascii) (p : ascii → bool).

Lemma strip_prefix_within sep x c y r :
  mem_char c sep = false →
  strip_prefix sep (x +:+ String c y) = Some r →
  ∃ r', strip_prefix sep x = Some r'.
Proof.
  revert x. induction sep as [|d sep IH]; intros x Hmem Hp; [by eexists|].
  simpl in Hmem. destruct (decide (c = d)) as [|Hcd]; [done|].
  destruct x as [|e x].
  - rewrite app_empty_l in Hp. simpl in Hp. by rewrite decide_False in Hp by done.
  - rewrite app_cons in Hp. simpl in Hp |- *.
    destruct (decide (d = e)); [|done]. by apply IH.
Qed.

Lemma contains_cons_false sep c x :
  contains sep (String c x) = false → contains sep x = false.
Proof.
  intros Hc. destruct (contains sep x) eqn:Hx; [|done].
  pose proof (contains_app_r sep (String c "") x Hx : contains sep (String c x) = true).
  congruence.
Qed.

(** Past a character that is not in the pattern, and a text before it that
    has no occurrence, the search goes on in the text after it. *)
Lemma find_first_past sep x c y :
  sep ≠ "" → mem_char c sep = false → contains sep x = false →
  find_first sep (x +:+ String c y)
  = match find_first sep y with
    | Some (a, b) => Some (x +:+ String c a, b)
    | None => None
    end.
Proof.
  intros Hsep Hmem. induction x as [|e x IH]; intros Hx.
  - rewrite app_empty_l. cbn [find_first].
    destruct sep as [|d sep]; [done|]. simpl in Hmem.
    destruct (decide (c = d)) as [|Hcd]; [done|]. simpl.
    rewrite decide_False by done. by destruct (find_first _ y) as [[a b]|].
  - rewrite app_cons. cbn [find_first]. rewrite <- app_cons.
    destruct (strip_prefix sep (String e x +:+ String c y)) as [r|] eqn:Hp.
    + destruct (strip_prefix_within sep (String e x) c y r Hmem Hp) as [r' Hr'].
      unfold contains in Hx. cbn [find_first] in Hx. by rewrite Hr' in Hx.
    + rewrite IH by (by apply (contains_cons_false sep e)).
      by destruct (find_first sep y) as [[a b]|].
Qed.

Lemma contains_past sep x c y :
  sep ≠ "" → mem_char c sep = false →
  contains sep (x +:+ String c y) = contains sep x || contains sep y.
Proof.
  intros Hsep Hmem. destruct (contains sep x) eqn:Hx.
  - by apply contains_app_l.
  - unfold contains at 1. rewrite find_first_past by done. unfold contains.
    by destruct (find_first sep y) as [[a b]|].
Qed.

Lemma contains_empty sep : sep ≠ "" → contains sep "" = false.
Proof. intros Hsep. unfold contains. by rewrite find_first_empty. Qed.

Lemma contains_skip d sep c x :
  c ≠ d → contains (String d sep) (String c x) = contains (String d sep) x.
Proof.
  intros Hcd. unfold contains. cbn [find_first]. simpl strip_prefix.
  rewrite decide_False by done. by destruct (find_first _ x) as [[a b]|].
Qed.

Lemma lstrip_by_app_stop p x d y :
  p d = false → lstrip_by p (x +:+ String d y) = lstrip_by p x +:+ String d y.
Proof.
  intros Hd. induction x as [|e x IH].
  - rewrite !app_empty_l. simpl. by rewrite Hd.
  - rewrite app_cons. simpl. by destruct (p e).
Qed.

Lemma rstrip_by_end_stop p x d :
  p d = false → rstrip_by p (x +:+ String d "") = x +:+ String d "".
Proof.
  intros Hd. induction x as [|e x IH].
  - rewrite app_empty_l. simpl. by rewrite Hd.
  - rewrite app_cons. cbn [rstrip_by]. rewrite IH. by destruct x.
Qed.

Lemma rstrip_by_end_space p x d :
  p d = true → rstrip_by p (x +:+ String d "") = rstrip_by p x.
Proof.
  intros Hd. induction x as [|e x IH].
  - rewrite app_empty_l. simpl. by rewrite Hd.
  - rewrite app_cons. cbn [rstrip_by]. by rewrite IH.
Qed.

Lemma lstrip_by_end_space p x d :
  p d = true →
  lstrip_by p (x +:+ String d "")
  = match lstrip_by p x with
    | EmptyString => EmptyString
    | t => t +:+ String d ""
    end.
Proof.
  intros Hd. induction x as [|e x IH].
  - rewrite app_empty_l. simpl. by rewrite Hd.
  - rewrite app_cons. simpl. destruct (p e); [done|]. by rewrite app_cons.
Qed.

(** A closing character that is not white space stays, and stops the strip
    from the right. *)
Lemma strip_end_stop x d :
  isspace d = false → strip (x +:+ String d "") = lstrip_by isspace x +:+ String d "".
Proof.
  intros Hd. unfold strip. by rewrite lstrip_by_app_stop, rstrip_by_end_stop.
Qed.

(** A closing white-space character is stripped. *)
Lemma strip_end_space x d : isspace d = true → strip (x +:+ String d "") = strip x.
Proof.
  intros Hd. unfold strip. rewrite lstrip_by_end_space by done.
  destruct (lstrip_by isspace x) as [|e t]; [done|].
  by rewrite rstrip_by_end_space.
Qed.

Lemma strip_start_space c x : isspace c = true → strip (String c x) = strip x.
Proof. intros Hc. unfold strip. simpl. by rewrite Hc. Qed.

End SeparatorFacts.

(** ** generate_sql_step followed by execute_sql_step *)

Section StatementFacts.
Implicit Types (s sep a b r x y table f g : string) (c d : ascii).

Lemma find_first_here sep r : find_first sep (sep +:+ r) = Some ("", r).
Proof.
  pose proof (strip_prefix_app sep r) as Hp.
  destruct (sep +:+ r); cbn [find_first]; by rewrite Hp.
Qed.

Lemma find_first_absent sep s : contains sep s = false → find_first sep s = None.
Proof. unfold contains. by destruct (find_first sep s). Qed.

(** The statement of the gender swap splits at its own WHERE. *)
Lemma select_where_split table f :
  contains "WHERE" table = false →
  find_first "WHERE" ("SELECT * FROM " +:+ table +:+ " WHERE " +:+ f +:+ ";")
  = Some ("SELECT * FROM " +:+ table +:+ " ", " " +:+ f +:+ ";").
Proof.
  intros Ht.
  change ("SELECT * FROM " +:+ table +:+ " WHERE " +:+ f +:+ ";")
    with ("SELECT" +:+ String " " ("*" +:+ String " " ("FROM" +:+ String " "
            (table +:+ String " " ("WHERE" +:+ (" " +:+ f +:+ ";")))))).
  rewrite (find_first_past "WHERE" "SELECT") by done.
  rewrite (find_first_past "WHERE" "*") by done.
  rewrite (find_first_past "WHERE" "FROM") by done.
  rewrite (find_first_past "WHERE" table) by done.
  by rewrite find_first_here.
Qed.

(** What [execute_sql_step] keeps of the clause of the gender swap: the
    closing semicolon stays. *)
Lemma select_where_captured f :
  contains "GROUP BY" f = false → contains "ORDER BY" f = false →
  let before sep s :=
    match find_first sep s with Some (x, _) => x | None => s end in
  strip (before "ORDER BY" (before "GROUP BY" (" " +:+ f +:+ ";")))
  = lstrip_by isspace f +:+ ";".
Proof.
  intros Hg Ho before. unfold before.
  change (" " +:+ f +:+ ";") with (String " " (f +:+ String ";" "")).
  rewrite (find_first_absent "GROUP BY"), (find_first_absent "ORDER BY").
  - by rewrite strip_start_space, strip_end_stop.
  - rewrite contains_skip, contains_past, Ho by done. by rewrite contains_empty.
  - rewrite contains_skip, contains_past, Hg by done. by rewrite contains_empty.
Qed.

(** The aggregate statement splits at its own WHERE, and what
    [execute_sql_step] keeps of the clause after it is the filters the
    statement was built from, stripped. *)
Lemma breakdown_where_clause g table f :
  contains "WHERE" g = false → contains "WHERE" table = false →
  contains "GROUP BY" f = false → contains "ORDER BY" f = false →
  let before sep s :=
    match find_first sep s with Some (x, _) => x | None => s end in
  ∃ a b, find_first "WHERE" (breakdown_sql g table f) = Some (a, b)
         ∧ strip (before "ORDER BY" (before "GROUP BY" b)) = strip f.
Proof.
  intros Hwg Hwt Hg Ho before.
  set (nl := Ascii.ascii_of_nat 10).
  set (cols := LF +:+ "       COUNT(*) AS review_count," +:+ LF
               +:+ "       AVG(reviewrating) AS avg_rating," +:+ LF
               +:+ "       MIN(reviewrating) AS min_rating," +:+ LF
               +:+ "       MAX(reviewrating) AS max_rating" +:+ LF +:+ "FROM").
  set (rest := " " +:+ g +:+ LF +:+ "ORDER BY review_count DESC;" +:+ LF).
  change (breakdown_sql g table f)
    with ((LF +:+ "SELECT") +:+ String " " (g +:+ String "," (cols +:+ String " "
            (table +:+ String nl
               ("WHERE" +:+ (String " " f +:+ String nl ("GROUP BY" +:+ rest))))))).
  rewrite (find_first_past "WHERE" (LF +:+ "SELECT")) by done.
  rewrite (find_first_past "WHERE" g) by done.
  rewrite (find_first_past "WHERE" cols) by done.
  rewrite (find_first_past "WHERE" table) by done.
  rewrite find_first_here. eexists _, _. split; [done|]. unfold before.
  rewrite (find_first_past "GROUP BY" (String " " f)); [|done|done|].
  2: { by rewrite contains_skip. }
  rewrite find_first_here, (find_first_absent "ORDER BY").
  - by rewrite app_cons, strip_start_space, strip_end_space.
  - rewrite contains_past by done. rewrite contains_skip, Ho by done.
    by rewrite contains_empty.
Qed.

End StatementFacts.

Section StageCompose.
Context `{backend : Collaborators}.
Implicit Types (st : AgentState) (tr : list event).

(** The gender swap followed by the execution of its statement.  The
    statement is built from the swapped filters and closed by a semicolon;
    [execute_sql_step] runs it and captures the text after its WHERE, so the
    [filters] field ends as the swapped filters without leading white space
    and with the semicolon of the statement at their end. *)
Theorem gender_swap_then_execute st tr table sch q f rs :
  table_selected st table →
  get_table_schema table = Ok sch →
  st !! "filters" = Some (PyStr f) → f ≠ "" →
  st !! "query" = Some (PyStr q) →
  contains "male" (lower q) = true →
  let new_filters := replace "'female'" "'male'" (replace "Female" "Male" f) in
  let sql := "SELECT * FROM " +:+ table +:+ " WHERE " +:+ new_filters +:+ ";" in
  contains "WHERE" table = false →
  contains "GROUP BY" new_filters = false →
  contains "ORDER BY" new_filters = false →
  run_query sql = Ok rs →
  ∃ st',
    (generate_sql_step;; execute_sql_step) (World st tr)
    = (Ok st', World st' (tr ++ [FetchSchema table; RunQuery sql]))
    ∧ st' !! "sql" = Some (PyStr sql)
    ∧ st' !! "filters" = Some (PyStr (lstrip_by isspace new_filters +:+ ";")).
Proof.
  intros Hsel Hs Hf Hfne Hq Hm new_filters sql Ht Hg Ho Hrun.
  pose proof (gender_swap_branch st tr table sch q f Hsel Hs Hf Hfne Hq Hm) as Hgen.
  cbv zeta in Hgen. fold new_filters in Hgen. fold sql in Hgen.
  rewrite (seq_run _ _ _ _ _ Hgen).
  pose proof (select_where_split table new_filters Ht) as Hsplit. fold sql in Hsplit.
  rewrite (execute_sql_step_captures_filters _ _ sql rs _ _
             (lookup_insert_eq _ _ _) Hrun Hsplit).
  rewrite select_where_captured by done.
  eexists. split; [by rewrite <- app_assoc|]. split.
  - by rewrite lookup_insert_ne, lookup_insert_ne, lookup_insert_eq.
  - by rewrite lookup_insert_eq.
Qed.

(** The breakdown followed by the execution of its statement.  The
    aggregate statement puts the filters on a line of their own between
    WHERE and GROUP BY; [execute_sql_step] runs it and captures that line,
    so the [filters] field ends as the filters the turn started with,
    stripped: a breakdown does not change the filters of stripped text. *)
Theorem breakdown_then_execute st tr table sch q f rs :
  table_selected st table →
  get_table_schema table = Ok sch →
  st !! "filters" = Some (PyStr f) → f ≠ "" →
  st !! "query" = Some (PyStr q) →
  contains "break down" (lower q) = true →
  contains "male" (lower q) = false →
  let group_col :=
    if contains "userage" (lower q) then PyStr "userage"
    else if contains "usergender" (lower q) then PyStr "usergender"
    else match st !! "last_group" with
         | Some v => v
         | None => PyStr "usergender"
         end in
  let sql := breakdown_sql (py_str group_col) table f in
  contains "WHERE" (py_str group_col) = false →
  contains "WHERE" table = false →
  contains "GROUP BY" f = false →
  contains "ORDER BY" f = false →
  run_query sql = Ok rs →
  ∃ st',
    (generate_sql_step;; execute_sql_step) (World st tr)
    = (Ok st', World st' (tr ++ [FetchSchema table; RunQuery sql]))
    ∧ st' !! "sql" = Some (PyStr sql)
    ∧ st' !! "filters" = Some (PyStr (strip f)).
Proof.
  intros Hsel Hs Hf Hfne Hq Hb Hm group_col sql Hgc Ht Hg Ho Hrun.
  pose proof (breakdown_branch st tr table sch q f Hsel Hs Hf Hfne Hq Hb Hm) as Hgen.
  cbv zeta in Hgen. fold group_col in Hgen. fold sql in Hgen.
  rewrite (seq_run _ _ _ _ _ Hgen).
  destruct (breakdown_where_clause (py_str group_col) table f Hgc Ht Hg Ho)
    as (a & b & Hsplit & Hcap).
  fold sql in Hsplit.
  rewrite (execute_sql_step_captures_filters _ _ sql rs _ _
             (lookup_insert_eq _ _ _) Hrun Hsplit).
  rewrite Hcap.
  eexists. split; [by rewrite <- app_assoc|]. split.
  - by rewrite lookup_insert_ne, lookup_insert_ne, lookup_insert_eq.
  - by rewrite lookup_insert_eq.
Qed.

End StageCompose.

(** ** More concrete runs *)

Lemma identify_table_step_selects_witness :
  let st := fresh_request "show female reviewers" in
  let st' := <["table_name" := PyStr (strip "reviews")]> st in
  ∃ tr', identify_table_step (backend := reviews_backend) (World st [])
         = (Ok st', World st' ([] ++ tr')).
Proof.
  intros st st'.
  apply (identify_table_step_selects (backend := reviews_backend) st [] ["reviews"]
           "reviews").
  - exact I.
  - reflexivity.
  - intros prompt. reflexivity.
  - change (strip "reviews") with "reviews". apply list_elem_of_singleton. reflexivity.
  - discriminate.
Defined.

Lemma generate_sql_step_skips_witness :
  let st := fresh_request "show female reviewers" in
  ∃ tr', generate_sql_step (backend := reviews_backend) (World st [])
         = (Ok st, World st ([] ++ tr'))
         ∧ ∀ ev, ev ∈ tr' → ∃ table, ev = FetchSchema table.
Proof.
  intros st.
  apply (generate_sql_step_skips (backend := reviews_backend) st []).
  left. exact I.
Defined.

Lemma generate_sql_step_query_none_raises_witness :
  let st : AgentState := <["query" := PyNone]> (<["table_name" := PyStr "reviews"]> ∅) in
  generate_sql_step (backend := reviews_backend) (World st [])
  = (Raise (Exn AttributeError "'NoneType' object has no attribute 'lower'"),
     World st ([] ++ [FetchSchema "reviews"])).
Proof.
  intros st.
  apply (generate_sql_step_query_none_raises (backend := reviews_backend) st []
           "reviews" reviews_schema).
  - split; [reflexivity|discriminate].
  - reflexivity.
  - reflexivity.
Defined.

Lemma generate_sql_step_total_witness :
  let st := follow_up "and the men?" in
  ∃ st' tr', generate_sql_step (backend := silent_backend) (World st [])
             = (Ok st', World st' ([] ++ tr'))
             ∧ ∀ k, k ∉ ["sql"; "filters"; "last_action"; "last_group"] →
                    st' !! k = st !! k.
Proof.
  intros st.
  apply (generate_sql_step_total (backend := silent_backend) st []).
  discriminate.
Defined.

Lemma generate_sql_step_default_witness :
  let st : AgentState :=
    <["filters" := PyStr "userage > 30"]>
      (<["query" := PyStr "how many reviews?"]> (<["table_name" := PyStr "reviews"]> ∅)) in
  let backend :=
    scripted ["reviews"] (Ok PyNone) (Ok (PyStr "SELECT COUNT(*) FROM reviews;"))
      (Ok "[]") in
  let filters := match st !! "filters" with Some v => v | None => PyNone end in
  let memory := match st !! "memory" with Some v => v | None => PyStr "" end in
  let enriched_query :=
    "Conversation so far:" +:+ LF +:+ py_str memory +:+ LF +:+ LF
    +:+ "User Query: " +:+ "how many reviews?" +:+ LF in
  let answer := PyStr "SELECT COUNT(*) FROM reviews;" in
  let sql :=
    if truthy filters && negb (contains "WHERE" (upper (or_empty answer)))
    then rstrip_chars ";" (strip (or_empty answer)) +:+ LF
         +:+ "WHERE " +:+ py_str filters +:+ ";"
    else or_empty answer in
  let st' := <["sql" := PyStr sql]> st in
  sql = "SELECT COUNT(*) FROM reviews" +:+ LF +:+ "WHERE userage > 30;"
  ∧ generate_sql_step (World st [])
    = (Ok st', World st' ([] ++ [FetchSchema "reviews";
                                  SynthesizeSql enriched_query "reviews"])).
Proof.
  intros st backend filters memory enriched_query answer sql st'.
  split; [reflexivity|].
  apply (generate_sql_step_default (backend := backend) st [] "reviews"
           reviews_schema "how many reviews?" answer).
  - split; [reflexivity|discriminate].
  - reflexivity.
  - reflexivity.
  - reflexivity.
  - reflexivity.
  - reflexivity.
Defined.

Lemma generate_sql_step_synthesizer_fails_witness :
  let st : AgentState :=
    <["query" := PyStr "how many reviews?"]> (<["table_name" := PyStr "reviews"]> ∅) in
  let memory := match st !! "memory" with Some v => v | None => PyStr "" end in
  let enriched_query :=
    "Conversation so far:" +:+ LF +:+ py_str memory +:+ LF +:+ LF
    +:+ "User Query: " +:+ "how many reviews?" +:+ LF in
  generate_sql_step (backend := silent_backend) (World st [])
  = (Ok st, World st ([] ++ [FetchSchema "reviews";
                             SynthesizeSql enriched_query "reviews"])).
Proof.
  intros st memory enriched_query.
  apply (generate_sql_step_synthesizer_fails (backend := silent_backend) st []
           "reviews" reviews_schema "how many reviews?"
           (Exn RuntimeError "Failed to generate SQL after 3 attempts")).
  - split; [reflexivity|discriminate].
  - reflexivity.
  - reflexivity.
  - reflexivity.
  - reflexivity.
  - reflexivity.
Defined.

Lemma generate_sql_step_needs_filters_witness :
  let st : AgentState :=
    <["query" := PyStr "show male instead"]> (<["table_name" := PyStr "reviews"]> ∅) in
  state (generate_sql_step (backend := reviews_backend) (World st [])).2 !! "last_action"
  = st !! "last_action".
Proof.
  intros st.
  apply (generate_sql_step_needs_filters (backend := reviews_backend) st []).
  - reflexivity.
  - discriminate.
Defined.

Lemma execute_sql_step_without_where_witness :
  let sql := "SELECT COUNT(*) FROM reviews" in
  let st := <["filters" := PyStr "userage > 30"]> (with_sql sql) in
  let st' := <["result" := PyStr (str_rows (Collaborators := reviews_backend) "[{'n': 1}]")]> st in
  execute_sql_step (backend := reviews_backend) (World st [])
  = (Ok st', World st' ([] ++ [RunQuery sql])).
Proof.
  intros sql st st'.
  apply (execute_sql_step_without_where (backend := reviews_backend) st [] sql
           "[{'n': 1}]").
  - reflexivity.
  - discriminate.
  - reflexivity.
  - reflexivity.
Defined.

Lemma execute_sql_step_filters_clean_witness :
  let sql := "SELECT * FROM t WHERE a = 1 GROUP BY b ORDER BY c" in
  let st := with_sql sql in
  ∃ a b flt,
    sql = a +:+ "WHERE" +:+ b ∧ contains "WHERE" a = false
    ∧ (∃ l r, b = l +:+ flt +:+ r)
    ∧ contains "GROUP BY" flt = false ∧ contains "ORDER BY" flt = false
    ∧ strip flt = flt
    ∧ let st' :=
        <["filters" := PyStr flt]>
          (<["result" := PyStr (str_rows (Collaborators := reviews_backend) "[{'n': 1}]")]> st) in
      execute_sql_step (backend := reviews_backend) (World st [])
      = (Ok st', World st' ([] ++ [RunQuery sql])).
Proof.
  intros sql st.
  apply (execute_sql_step_filters_clean (backend := reviews_backend) st [] sql
           "[{'n': 1}]").
  - reflexivity.
  - reflexivity.
  - reflexivity.
Defined.

Lemma summarize_step_appends_turn_witness :
  let st := <["result" := PyStr "[{'n': 1}]"]> (fresh_request "how many reviews?") in
  let backend :=
    scripted ["reviews"] (Ok (PyStr " There is one review. ")) (Ok PyNone) (Ok "[]") in
  let previous := match st !! "memory" with Some v => v | None => PyStr "" end in
  let query := match st !! "query" with Some v => v | None => PyNone end in
  let memory :=
    py_str previous +:+ LF +:+ "User: " +:+ py_str query +:+ LF
    +:+ "AI: " +:+ strip " There is one review. " +:+ LF in
  let st' :=
    <["memory" := PyStr memory]>
      (<["answer" := PyStr (strip " There is one review. ")]> st) in
  ∃ prompt,
    summarize_step (World st [])
    = (Ok st', World st' ([] ++ [ChatCompletion
         "You are a helpful data analyst who speaks in plain English." prompt])).
Proof.
  intros st backend previous query memory st'.
  apply (summarize_step_appends_turn (backend := backend) st []
           " There is one review. ").
  intros prompt. reflexivity.
Defined.

Lemma summarize_step_failure_witness :
  let st := fresh_request "how many reviews?" in
  let outcome : res pyval := Raise (Exn OtherException "Connection error.") in
  let msg := match outcome with
             | Raise e => exn_msg e
             | Ok _ => "'NoneType' object has no attribute 'strip'"
             end in
  let st' := <["answer" := PyStr ("Summarization error: " +:+ msg)]> st in
  ∃ prompt,
    summarize_step (backend := silent_backend) (World st [])
    = (Ok st', World st' ([] ++ [ChatCompletion
         "You are a helpful data analyst who speaks in plain English." prompt])).
Proof.
  intros st outcome msg st'.
  apply (summarize_step_failure (backend := silent_backend) st [] outcome).
  - intros prompt. reflexivity.
  - intros content. discriminate.
Defined.

Lemma graph_agent_answers_witness :
  let st := fresh_request "show female reviewers" in
  ∃ st' tr' answer,
    graph_agent (backend := silent_backend) (World st [])
    = (Ok st', World st' ([] ++ tr'))
    ∧ st' !! "answer" = Some (PyStr answer)
    ∧ st' !! "query" = st !! "query".
Proof.
  intros st.
  apply (graph_agent_answers (backend := silent_backend) st []).
  discriminate.
Defined.

Lemma graph_agent_without_filters_witness :
  let st := fresh_request "show male instead" in
  let st' := state (graph_agent (backend := reviews_backend) (World st [])).2 in
  st' !! "last_action" = st !! "last_action"
  ∧ st' !! "last_group" = st !! "last_group".
Proof.
  intros st.
  apply (graph_agent_without_filters (backend := reviews_backend) st []).
  reflexivity.
Defined.

Lemma generate_sql_gemini_validated_witness :
  "SELECT * FROM reviews" ≠ ""
  ∧ startswith "select" (lower (strip "SELECT * FROM reviews")) = true
  ∧ contains (lower "Reviews") (lower (strip "SELECT * FROM reviews")) = true.
Proof.
  apply (SqlGeneratorFacts.generate_sql_gemini_validated (model := flaky_model)
           "all reviews" "usergender, userage" "Reviews" 2 []
           "SELECT * FROM reviews"
           (SqlGenerator.failed_rounds 0 2
              (SqlGenerator.sql_prompt "all reviews" "usergender, userage" "Reviews")
            ++ [SqlGenerator.Asked 2
                  (SqlGenerator.sql_prompt "all reviews" "usergender, userage" "Reviews")])).
  vm_compute. reflexivity.
Defined.

Lemma generate_sql_gemini_gives_up_witness :
  let prompt := SqlGenerator.sql_prompt "all reviews" "usergender, userage" "reviews" in
  SqlGenerator.generate_sql_gemini (model := dead_model)
    "all reviews" "usergender, userage" "reviews" 2 []
  = (Raise (Exn RuntimeError
              ("Failed to generate SQL after " +:+ pretty (2 + 1) +:+ " attempts")),
     [] ++ SqlGenerator.failed_rounds 0 (Z.to_nat (2 + 1)) prompt).
Proof.
  intros prompt.
  apply (SqlGeneratorFacts.generate_sql_gemini_gives_up (model := dead_model)
           "all reviews" "usergender, userage" "reviews" 2 []).
  intros i. exact I.
Defined.

Lemma generate_sql_gemini_retries_witness :
  let prompt := SqlGenerator.sql_prompt "all reviews" "usergender, userage" "reviews" in
  let content := "```sql" +:+ LF +:+ "SELECT *   FROM reviews" +:+ LF +:+ "```" in
  SqlGenerator._clean_model_sql (strip content) = "SELECT * FROM reviews"
  ∧ SqlGenerator.generate_sql_gemini (model := flaky_model)
      "all reviews" "usergender, userage" "reviews" 2 []
    = (Ok (SqlGenerator._clean_model_sql (strip content)),
       [] ++ SqlGenerator.failed_rounds 0 2 prompt ++ [SqlGenerator.Asked 2 prompt]).
Proof.
  intros prompt content. split; [reflexivity|].
  apply (SqlGeneratorFacts.generate_sql_gemini_retries (model := flaky_model)
           "all reviews" "usergender, userage" "reviews" 2 [] 2 content).
  - lia.
  - intros [|[|i]] Hi; [exact I|reflexivity|lia].
  - reflexivity.
  - reflexivity.
Defined.

Lemma ensure_table_name_safe_normal_witness :
  "user_reviews" = lower (strip " User_Reviews ") ∧ "user_reviews" ≠ ""
  ∧ all_chars (λ c, isalnum c || bool_decide (c = "_"%char)) "user_reviews" = true
  ∧ _ensure_table_name_safe "user_reviews" = Ok "user_reviews".
Proof.
  apply (ensure_table_name_safe_normal " User_Reviews " "user_reviews").
  reflexivity.
Defined.

Lemma upload_new_table_writes_all_rows_witness :
  let env := one_file 3 1 "reviews.csv" three_rows in
  let clean := _normalize_dataframe three_rows in
  let schema := if truthy DEFAULT_SCHEMA then Some (py_str DEFAULT_SCHEMA) else None in
  let drop_sql :=
    "IF OBJECT_ID(N'" +:+ "reviews" +:+ "', N'U') IS NOT NULL DROP TABLE "
    +:+ "reviews" +:+ ";" in
  ∃ writes,
    upload_new_table 3 "reviews.csv" " Reviews " []
    = (Ok (Some ("Uploaded " +:+ pretty (len clean) +:+ " rows to table '"
                 +:+ "reviews" +:+ "' successfully")),
       [] ++ [GetEngine; Begin; Execute drop_sql] ++ writes)
    ∧ written writes = records clean
    ∧ ∀ i op, writes !! i = Some op →
        chunk_write "reviews" schema CHUNK_SIZE
          (if bool_decide (i = 0%nat) then Replace else Append) op.
Proof.
  intros env clean schema drop_sql.
  apply (upload_new_table_writes_all_rows (env := env) 3 "reviews.csv" " Reviews "
           "reviews.csv" "reviews" three_rows []).
  - reflexivity.
  - reflexivity.
  - reflexivity.
  - reflexivity.
  - vm_compute. discriminate.
  - reflexivity.
  - reflexivity.
  - reflexivity.
  - reflexivity.
  - intros mode sch chunk. reflexivity.
  - simpl. lia.
Defined.

Lemma to_sql_with_chunks_no_rows_witness :
  let env := one_file 3 1 "reviews.csv" three_rows in
  let df := {| columns := ["user_name"]; records := [] |} in
  let drop_sql :=
    "IF OBJECT_ID(N'" +:+ "reviews" +:+ "', N'U') IS NOT NULL DROP TABLE "
    +:+ "reviews" +:+ ";" in
  _to_sql_with_chunks 3 df "reviews" PyNone []
  = (Raise (Exn ValueError "Uploaded file contains no rows"),
     [] ++ [Begin; Execute drop_sql]).
Proof.
  intros env df drop_sql.
  apply (to_sql_with_chunks_no_rows (env := env) 3 df "reviews" PyNone []).
  - reflexivity.
  - reflexivity.
Defined.

Lemma upload_new_table_first_write_fails_witness :
  let env := refused_writes 3 2 "reviews.csv" three_rows in
  let e := Exn SQLAlchemyError "String or binary data would be truncated." in
  let clean := _normalize_dataframe three_rows in
  let schema := if truthy DEFAULT_SCHEMA then Some (py_str DEFAULT_SCHEMA) else None in
  let first_chunk := iloc clean 0 (Z.min (0 + CHUNK_SIZE) (len clean)) in
  let drop_sql :=
    "IF OBJECT_ID(N'" +:+ "reviews" +:+ "', N'U') IS NOT NULL DROP TABLE "
    +:+ "reviews" +:+ ";" in
  upload_new_table 1 "reviews.csv" "Reviews" []
  = (Raise (Exn RuntimeError
              ("Failed to upload table '" +:+ "reviews" +:+ "': " +:+ exn_msg e)),
     [] ++ [GetEngine; Begin; Execute drop_sql;
            ToSql "reviews" Replace schema first_chunk]).
Proof.
  intros env e clean schema first_chunk drop_sql.
  apply (upload_new_table_first_write_fails (env := env) 0 "reviews.csv" "Reviews"
           "reviews.csv" "reviews" three_rows [] e).
  - reflexivity.
  - reflexivity.
  - reflexivity.
  - reflexivity.
  - vm_compute. discriminate.
  - reflexivity.
  - reflexivity.
  - reflexivity.
  - reflexivity.
Defined.

Lemma ask_graph_agent_answers_witness :
  let sid := if bool_decide ("" = "") then "default" else "" in
  let h : Api.history := {["default" := [Api.Turn "hello" "Hi."]]} in
  let previous := match h !! sid with Some c => c | None => [] end in
  ∃ answer tr',
    answer ≠ ""
    ∧ Api.ask_graph_agent (backend := silent_backend) "show female reviewers" "" h []
      = (Api.Answered answer (previous ++ [Api.Turn "show female reviewers" answer]),
         <[sid := previous ++ [Api.Turn "show female reviewers" answer]]> h,
         [] ++ tr').
Proof.
  intros sid h previous.
  apply (ApiFacts.ask_graph_agent_answers (backend := silent_backend)
           "show female reviewers" "" h []).
  discriminate.
Defined.

Lemma gender_swap_then_execute_witness :
  let st := follow_up "show male instead" in
  let new_filters :=
    replace "'female'" "'male'" (replace "Female" "Male" "usergender = 'Female'") in
  let sql := "SELECT * FROM " +:+ "reviews" +:+ " WHERE " +:+ new_filters +:+ ";" in
  ∃ st',
    (generate_sql_step (backend := reviews_backend);;
     execute_sql_step (backend := reviews_backend)) (World st [])
    = (Ok st', World st' ([] ++ [FetchSchema "reviews"; RunQuery sql]))
    ∧ st' !! "sql" = Some (PyStr sql)
    ∧ st' !! "filters" = Some (PyStr (lstrip_by isspace new_filters +:+ ";")).
Proof.
  intros st.
  apply (gender_swap_then_execute (backend := reviews_backend)
           st [] "reviews" reviews_schema "show male instead" "usergender = 'Female'"
           "[{'n': 1}]").
  - split; [reflexivity|discriminate].
  - reflexivity.
  - reflexivity.
  - discriminate.
  - reflexivity.
  - reflexivity.
  - reflexivity.
  - reflexivity.
  - reflexivity.
  - reflexivity.
Defined.

Lemma breakdown_then_execute_witness :
  let st := follow_up "break down by userage" in
  let group_col :=
    if contains "userage" (lower "break down by userage") then PyStr "userage"
    else if contains "usergender" (lower "break down by userage") then PyStr "usergender"
    else match st !! "last_group" with
         | Some v => v
         | None => PyStr "usergender"
         end in
  let sql := breakdown_sql (py_str group_col) "reviews" "usergender = 'Female'" in
  ∃ st',
    (generate_sql_step (backend := reviews_backend);;
     execute_sql_step (backend := reviews_backend)) (World st [])
    = (Ok st', World st' ([] ++ [FetchSchema "reviews"; RunQuery sql]))
    ∧ st' !! "sql" = Some (PyStr sql)
    ∧ st' !! "filters" = Some (PyStr (strip "usergender = 'Female'")).
Proof.
  intros st.
  apply (breakdown_then_execute (backend := reviews_backend)
           st [] "reviews" reviews_schema "break down by userage" "usergender = 'Female'"
           "[{'n': 1}]").
  - split; [reflexivity|discriminate].
  - reflexivity.
  - reflexivity.
  - discriminate.
  - reflexivity.
  - reflexivity.
  - reflexivity.
  - reflexivity.
  - reflexivity.
  - reflexivity.
  - reflexivity.
  - reflexivity.
Defined.
